(** * Synthetic time-series forecasting scripts: a shallow embedding

    The development follows [series/Forecasting.py] (signal generator and
    classical baselines) and [series/CNNLSTM.py] (supervised windowing).

    - NumPy arrays of rank one are lists; Python basic slicing is written out
      with its clamping and its negative indices.
    - A Python call either returns or raises: [outcome].
    - Array elements live in a [DType]: the arithmetic the script applies to
      them.  [Float32] is IEEE binary32 (the script builds its series from
      [np.arange(..., dtype="float32")]), given by the reference
      semantics of [SpecFloat].
    - The random generator of NumPy and the shuffling of [tf.data] are
      library code: the generator is a parameter, the shuffle buffer is
      modelled with its random choices as an explicit input. *)

From Stdlib Require Import ZArith Lia.
From Stdlib Require Import Floats.SpecFloat.
From stdpp Require Import base list.

Local Open Scope Z_scope.

(** ** Outcomes of a Python call *)

Inductive exn : Type :=
  | ValueError            (* NumPy: operands could not be broadcast, bad seed *)
  | InvalidArgumentError. (* tf.data: non-positive window, batch or buffer size *)

Inductive outcome (A : Type) : Type :=
  | Returned (a : A)
  | Raised (e : exn).
Arguments Returned {A} a.
Arguments Raised {A} e.

#[export] Instance outcome_ret : MRet outcome := @Returned.

#[export] Instance outcome_bind : MBind outcome := fun A B k m =>
  match m with
  | Returned a => k a
  | Raised e => Raised e
  end.


(** ** Python sequences *)

Module Py.

Definition len {A} (l : list A) : Z := Z.of_nat (length l).

(** [range(n)]: empty when [n <= 0]. *)
Definition range (n : Z) : list Z := seqZ 0 n.

(** One bound of a slice with step 1, as [PySlice_AdjustIndices] clamps it:
    a negative bound counts from the end. *)
Definition adjust_index (n i : Z) : Z :=
  if i <? 0 then Z.max (i + n) 0 else Z.min i n.

(** [l[start:stop]]; [None] is an omitted bound. *)
Definition slice {A} (l : list A) (start stop : option Z) : list A :=
  let n := len l in
  let lo := match start with None => 0 | Some i => adjust_index n i end in
  let hi := match stop with None => n | Some j => adjust_index n j end in
  take (Z.to_nat (hi - lo)) (drop (Z.to_nat lo) l).

End Py.
Import Py.

(** ** Element types *)

Class DType (F : Type) : Type := {
  add : F -> F -> F;
  sub : F -> F -> F;
  mul : F -> F -> F;
  (** [ndarray.mean()] of a rank-one array *)
  mean : list F -> F
}.

(** What the signal generator needs on top: division, the remainder of
    [%] (sign of the divisor), comparison, the literals of the source and the
    two library functions [np.cos] and [np.exp]. *)
Class Elementary (F : Type) : Type := {
  div : F -> F -> F;
  remainder : F -> F -> F;
  less : F -> F -> bool;
  of_Z : Z -> F;
  lit_0_4 : F;
  pi : F;
  cos : F -> F;
  exp : F -> F
}.

(** IEEE 754 binary32, round to nearest even. *)
Module Float32.

Definition prec : Z := 24.
Definition emax : Z := 128.

Definition t : Type := spec_float.

Definition of_Z (n : Z) : t := binary_normalize prec emax n 0 false.
(** [m * 2^e], correctly rounded *)
Definition of_scaled (m e : Z) : t := binary_normalize prec emax m e false.

Definition zero : t := S754_zero false.
Definition nan : t := S754_nan.

Definition fadd : t -> t -> t := SFadd prec emax.
Definition fsub : t -> t -> t := SFsub prec emax.
Definition fmul : t -> t -> t := SFmul prec emax.
Definition fdiv : t -> t -> t := SFdiv prec emax.
(** [==] on floats *)
Definition eqb : t -> t -> bool := SFeqb.

(** The arithmetic mean as NumPy computes it on a window of fewer than
    eight elements: the add-reduction runs left to right in binary32 and the
    sum is divided by the element count.  (Longer windows are summed
    pairwise; the theorems that range over all windows take [mean] from the
    [DType] and do not depend on this definition.) *)
Definition fmean (l : list t) : t :=
  fdiv (fold_left fadd l zero) (of_Z (len l)).

End Float32.

#[export] Instance float32 : DType Float32.t := {
  add := Float32.fadd;
  sub := Float32.fsub;
  mul := Float32.fmul;
  mean := Float32.fmean
}.

(** ** NumPy arrays of rank one *)

Module np.

(** [np.array(list_of_scalars)] *)
Definition array {F} (l : list F) : list F := l.

(** An elementwise binary operator on two arrays, with broadcasting: equal
    lengths go pairwise, a length-one operand is stretched, anything else
    raises. *)
Definition binop {F} (f : F -> F -> F) (a b : list F) : outcome (list F) :=
  if (length a =? length b)%nat then Returned (zip_with f a b)
  else match a, b with
       | [x], _ => Returned (map (f x) b)
       | _, [y] => Returned (map (fun x => f x y) a)
       | _, _ => Raised ValueError
       end.

(** [np.where(cond, a, b)] on three arrays of one length *)
Definition where_ {F} (cond : list bool) (a b : list F) : list F :=
  zip_with (fun (c : bool) (xy : F * F) => if c then xy.1 else xy.2)
           cond (zip a b).

End np.

(** ** Forecasting.py: the signal generator *)

Section Generator.
Context {F : Type} `{DType F} `{Elementary F}.

(** [trend(time, slope=0)]: a scalar times an array *)
Definition trend (time : list F) (slope : F) : outcome (list F) :=
  Returned (map (mul slope) time).

(** [seasonal_pattern(season_time)] *)
Definition seasonal_pattern (season_time : list F) : outcome (list F) :=
  Returned
    (np.where_ (map (fun x => less x lit_0_4) season_time)
               (map (fun x => cos (mul (mul x (of_Z 2)) pi)) season_time)
               (map (fun x => div (of_Z 1) (exp (mul (of_Z 3) x))) season_time)).

(** [seasonality(time, period, amplitude=1, phase=0)] *)
Definition seasonality (time : list F) (period amplitude phase : F)
  : outcome (list F) :=
  let season_time :=
    map (fun t => div (remainder (add t phase) period) period) time in
  pattern ← seasonal_pattern season_time;
  Returned (map (mul amplitude) pattern).

End Generator.

(** ** Forecasting.py: seeded noise

    [np.random.RandomState] is NumPy's: the generator state, its seeding from
    a 32-bit integer and one standard-normal draw are parameters.  The process
    owns the hidden generator behind [np.random.seed] and [np.random.randn]
    and the operating system's entropy, which [RandomState(None)] reads. *)

Section Noise.
Context {F : Type} `{DType F}.
Context {rng : Type}.
Variable init_genrand : Z -> rng.
Variable gauss : rng -> F * rng.

Record process : Type := {
  global_rand : rng;
  os_entropy : nat -> Z;
  os_reads : nat
}.

Definition with_global_rand (g : rng) (w : process) : process :=
  {| global_rand := g; os_entropy := os_entropy w; os_reads := os_reads w |}.

(** [np.random.RandomState(seed)] *)
Definition RandomState (seed : option Z) (w : process)
  : outcome rng * process :=
  match seed with
  | None =>
      (Returned (init_genrand (os_entropy w (os_reads w))),
       {| global_rand := global_rand w;
          os_entropy := os_entropy w;
          os_reads := S (os_reads w) |})
  | Some s =>
      if bool_decide (0 <= s < 2 ^ 32)
      then (Returned (init_genrand s), w)
      else (Raised ValueError, w)
  end.

(** [rnd.randn(n)]: [n] draws, in order *)
Fixpoint randn (n : nat) (rnd : rng) : list F * rng :=
  match n with
  | O => ([], rnd)
  | S n =>
      let (x, rnd) := gauss rnd in
      let (xs, rnd) := randn n rnd in
      (x :: xs, rnd)
  end.

(** [noise(time, noise_level=1, seed=None)] *)
Definition noise (time : list F) (noise_level : F) (seed : option Z)
    (w : process) : outcome (list F) * process :=
  match RandomState seed w with
  | (Returned rnd, w) =>
      (Returned (map (fun x => mul x noise_level) (randn (length time) rnd).1), w)
  | (Raised e, w) => (Raised e, w)
  end.

(** [np.random.seed(s)] (CNNLSTM.py seeds the hidden generator before each
    training run) and [np.random.randn(n)], a draw from it. *)
Definition np_random_seed (s : Z) (w : process) : outcome unit * process :=
  if bool_decide (0 <= s < 2 ^ 32)
  then (Returned tt, with_global_rand (init_genrand s) w)
  else (Raised ValueError, w).

Definition np_random_randn (n : nat) (w : process) : outcome (list F) * process :=
  let (xs, g) := randn n (global_rand w) in
  (Returned xs, with_global_rand g w).

End Noise.

(** ** Forecasting.py: the baselines *)

Section Forecasters.
Context {F : Type} `{DType F}.

(** [moving_average_forecast(series, window_size)] *)
Definition moving_average_forecast (series : list F) (window_size : Z)
  : outcome (list F) :=
  let forecast :=
    fold_left
      (fun forecast time =>
         forecast ++ [mean (slice series (Some time) (Some (time + window_size)))])
      (range (len series - window_size)) [] in
  Returned (np.array forecast).

(** The module-level statements of the script, as functions of the series
    they read.  [split_time] is the script's variable; [period] stands for
    its literal 365 and [window] for the window literals 30 and 50. *)
Variables (split_time period : Z).

(** [series[split_time - 1:-1]] *)
Definition naive_forecast (series : list F) : list F :=
  slice series (Some (split_time - 1)) (Some (-1)).

(** [moving_average_forecast(series, 30)[split_time - 30:]] *)
Definition moving_avg (window : Z) (series : list F) : outcome (list F) :=
  forecast ← moving_average_forecast series window;
  Returned (slice forecast (Some (split_time - window)) None).

(** [series[365:] - series[:-365]] *)
Definition diff_series (series : list F) : outcome (list F) :=
  np.binop sub (slice series (Some period) None)
               (slice series None (Some (- period))).

(** [moving_average_forecast(diff_series, 50)[split_time - 365 - 50:]] *)
Definition diff_moving_avg (window : Z) (series : list F) : outcome (list F) :=
  diff_series ← diff_series series;
  forecast ← moving_average_forecast diff_series window;
  Returned (slice forecast (Some (split_time - period - window)) None).

(** [series[split_time - 365:-365] + diff_moving_avg] *)
Definition diff_moving_avg_plus_past (window : Z) (series : list F)
  : outcome (list F) :=
  diff_moving_avg ← diff_moving_avg window series;
  np.binop add (slice series (Some (split_time - period)) (Some (- period)))
               diff_moving_avg.

(** [moving_average_forecast(series[split_time - 370:-360], 10) + diff_moving_avg]
    (370 and 360 are the period plus and minus half the window of 10) *)
Definition diff_moving_avg_plus_smooth_past (window : Z) (series : list F)
  : outcome (list F) :=
  diff_moving_avg ← diff_moving_avg window series;
  smooth_past ←
    moving_average_forecast
      (slice series (Some (split_time - (period + 5))) (Some (- (period - 5)))) 10;
  np.binop add smooth_past diff_moving_avg.

End Forecasters.

(** The run of the script: 4 * 365 + 1 samples, split at 1000, yearly
    period, a 50-sample window on the differences. *)
Module Run.
Definition T : Z := 4 * 365 + 1.
Definition split_time : Z := 1000.
Definition period : Z := 365.
Definition window : Z := 50.
End Run.

(** ** CNNLSTM.py: supervised windows over [tf.data]

    A dataset is the finite sequence of its elements.  The operations are
    TensorFlow's; the random choices of the shuffle buffer are the input
    [rand]. *)

Module tfdata.

Definition Dataset (A : Type) : Type := list A.

(** [tf.expand_dims(series, axis=-1)]: every sample becomes a vector of one
    feature. *)
Definition expand_dims {F} (series : list F) : list (list F) :=
  map (fun x => [x]) series.

Definition from_tensor_slices {A} (tensor : list A) : Dataset A := tensor.

(** The windows that start at 0, [shift], 2 * [shift], ... while elements
    remain; at most [size] elements each. *)
Fixpoint windows_from {A} (fuel size shift : nat) (ds : list A)
  : list (list A) :=
  match fuel with
  | O => []
  | S fuel =>
      match ds with
      | [] => []
      | _ => take size ds :: windows_from fuel size shift (drop shift ds)
      end
  end.

(** [dataset.window(size, shift, drop_remainder)] *)
Definition window {A} (size shift : Z) (drop_remainder : bool)
    (ds : Dataset A) : outcome (Dataset (Dataset A)) :=
  if bool_decide (0 < size /\ 0 < shift) then
    let ws := windows_from (length ds) (Z.to_nat size) (Z.to_nat shift) ds in
    Returned (if drop_remainder
              then filter (fun w => length w = Z.to_nat size) ws
              else ws)
  else Raised InvalidArgumentError.

Fixpoint chunks {A} (fuel n : nat) (ds : list A) : list (list A) :=
  match fuel with
  | O => []
  | S fuel =>
      match ds with
      | [] => []
      | _ => take n ds :: chunks fuel n (drop n ds)
      end
  end.

(** [dataset.batch(batch_size)]: the last batch may be short *)
Definition batch {A} (batch_size : Z) (ds : Dataset A)
  : outcome (Dataset (list A)) :=
  if bool_decide (0 < batch_size)
  then Returned (chunks (length ds) (Z.to_nat batch_size) ds)
  else Raised InvalidArgumentError.

(** [dataset.flat_map(f)] *)
Fixpoint flat_map {A B} (f : A -> outcome (Dataset B)) (ds : Dataset A)
  : outcome (Dataset B) :=
  match ds with
  | [] => Returned []
  | x :: ds =>
      ys ← f x;
      rest ← flat_map f ds;
      Returned (ys ++ rest)
  end.

(** The input is exhausted: the buffer empties, one random slot at a time. *)
Fixpoint drain {A} (fuel : nat) (rand : list nat) (buf : list A) : list A :=
  match fuel with
  | O => []
  | S fuel =>
      let i := (hd 0%nat rand `mod` length buf)%nat in
      match buf !! i with
      | Some x => x :: drain fuel (tl rand) (delete i buf)
      | None => []
      end
  end.

(** A random slot of the buffer is emitted and refilled from the input. *)
Fixpoint refill {A} (rand : list nat) (buf rest : list A) : list A :=
  match rest with
  | [] => drain (length buf) rand buf
  | y :: rest =>
      let i := (hd 0%nat rand `mod` length buf)%nat in
      match buf !! i with
      | Some x => x :: refill (tl rand) (<[i := y]> buf) rest
      | None => []
      end
  end.

(** [dataset.shuffle(buffer_size)] *)
Definition shuffle {A} (buffer_size : Z) (rand : list nat) (ds : Dataset A)
  : outcome (Dataset A) :=
  if bool_decide (0 < buffer_size)
  then Returned (refill rand (take (Z.to_nat buffer_size) ds)
                             (drop (Z.to_nat buffer_size) ds))
  else Raised InvalidArgumentError.

(** [dataset.map(f)] *)
Definition map {A B} (f : A -> B) (ds : Dataset A) : Dataset B := List.map f ds.

(** [dataset.prefetch(n)] changes when elements are produced, not which. *)
Definition prefetch {A} (n : Z) (ds : Dataset A) : Dataset A := ds.

End tfdata.

(** [windowed_dataset(series, window_size, batch_size, shuffle_buffer)].  A
    batch of pairs stands for the pair of stacked tensors TensorFlow yields. *)
Definition windowed_dataset {F} (series : list F)
    (window_size batch_size shuffle_buffer : Z) (rand : list nat)
  : outcome (tfdata.Dataset (list (list (list F) * list (list F)))) :=
  let series := tfdata.expand_dims series in
  let dataset := tfdata.from_tensor_slices series in
  dataset ← tfdata.window (window_size + 1) 1 true dataset;
  dataset ← tfdata.flat_map (fun window => tfdata.batch (window_size + 1) window) dataset;
  dataset ← tfdata.shuffle shuffle_buffer rand dataset;
  let dataset :=
    tfdata.map (fun window => (slice window None (Some (-1)),
                               slice window (Some 1) None)) dataset in
  dataset ← tfdata.batch batch_size dataset;
  Returned (tfdata.prefetch 1 dataset).

(** The pairs of a batched dataset, in the order they are produced. *)
Definition unbatch {A} (ds : tfdata.Dataset (list A)) : list A := concat ds.

(** ** Forecasting.py: plotting, the split and the noise-free series *)

Module plt.

(** [plt.plot(x, y, format)]: one point per pair of coordinates; arrays of
    different lengths are refused.  The points handed to the canvas stand for
    the drawing. *)
Definition plot {A B} (x : list A) (y : list B) : outcome (list (A * B)) :=
  if (length x =? length y)%nat then Returned (zip x y) else Raised ValueError.

End plt.

(** [plot_series(time, series, format="-", start=0, end=None)]; the labels
    and the grid do not depend on the arguments. *)
Definition plot_series {A B} (time : list A) (series : list B)
    (start : Z) (end_ : option Z) : outcome (list (A * B)) :=
  plt.plot (slice time (Some start) end_) (slice series (Some start) end_).

Section Split.
Context {A : Type}.
Variable split_time : Z.

(** [series[:split_time]]; [time_train] is the same slice of [time]. *)
Definition x_train (series : list A) : list A :=
  slice series None (Some split_time).

(** [series[split_time:]]; [time_valid] is the same slice of [time]. *)
Definition x_valid (series : list A) : list A :=
  slice series (Some split_time) None.

End Split.

Section NoiseFree.
Context {F : Type} `{DType F} `{Elementary F}.

(** [baseline + trend(time, slope) + seasonality(time, period=365, amplitude=amplitude)]:
    a scalar plus an array, then two arrays; [phase] has its default 0. *)
Definition series_without_noise (time : list F)
    (baseline slope period amplitude : F) : outcome (list F) :=
  trend_ ← trend time slope;
  season ← seasonality time period amplitude (of_Z 0);
  np.binop add (map (add baseline) trend_) season.

End NoiseFree.

(** ** Forecasting.py: the series with its noise *)


Section GeneratedSeries.
Context {F : Type} `{DType F} `{Elementary F} {rng : Type}.
Variable init_genrand : Z -> rng.
Variable gauss : rng -> F * rng.

(** [x += y] on one element: the sum as NumPy computes it, stored in the
    precision of the series. *)
Variable iadd : F -> F -> F.


End GeneratedSeries.

(** ** CNNLSTM.py: forecasting with the trained model *)

Module keras.

(** [model.predict(dataset)]: the model is applied to every batch and the
    outputs are concatenated along the first axis; a dataset without any
    batch is refused ("Expect x to be a non-empty array or dataset").  The
    network of the script keeps no state between the rows of a batch, so
    [model] is what it computes on one row. *)
Definition predict {W O} (model : W -> O) (dataset : tfdata.Dataset (list W))
  : outcome (list O) :=
  match dataset with
  | [] => Raised ValueError
  | _ => Returned (concat (List.map (List.map model) dataset))
  end.

End keras.

(** [model_forecast(model, series, window_size, batch_size)] *)
Definition model_forecast {A O} (model : list A -> O) (series : list A)
    (window_size batch_size : Z) : outcome (list O) :=
  let dataset := tfdata.from_tensor_slices series in
  dataset ← tfdata.window window_size 1 true dataset;
  dataset ← tfdata.flat_map (fun window => tfdata.batch window_size window) dataset;
  dataset ← tfdata.batch batch_size dataset;
  let dataset := tfdata.prefetch 1 dataset in
  keras.predict model dataset.

(** [model_forecast(model, series[..., np.newaxis], window_size, batch_size)]
    followed by the first-axis part of
    [forecast[split_time - window_size:-1, -1, 0]]: the rows kept for the
    validation period.  (The two other indices pick, inside each row, the
    only feature of the last step.) *)
Definition forecast_rows {F O} (model : list (list F) -> O) (series : list F)
    (split_time window_size batch_size : Z) : outcome (list O) :=
  forecast ← model_forecast model (tfdata.expand_dims series) window_size batch_size;
  Returned (slice forecast (Some (split_time - window_size)) (Some (-1))).

(** ** Vocabulary of the statements *)

Section Vocabulary.
Context {F : Type} `{DType F}.

(** [diff[t] = series[t] - series[t - period]], at a time [t] of the
    series ([d] fills the places outside it). *)
Definition diff_at (period : Z) (series : list F) (d : F) (t : Z) : F :=
  sub (nth (Z.to_nat t) series d) (nth (Z.to_nat (t - period)) series d).

(** The differences averaged for the forecast of time [t]: the [window]
    ones at times [t - window], ..., [t - 1]. *)
Definition diffs_before (period window : Z) (series : list F) (d : F) (t : Z)
  : list F :=
  map (diff_at period series d) (seqZ (t - window) window).

End Vocabulary.

Section GeneratorVocabulary.
Context {F : Type} `{DType F} `{Elementary F}.

(** The pattern at one point of the season: the cosine branch below the
    literal 0.4, the reciprocal of the exponential from there on. *)
Definition pattern_at (x : F) : F :=
  if less x lit_0_4
  then cos (mul (mul x (of_Z 2)) pi)
  else div (of_Z 1) (exp (mul (of_Z 3) x)).

(** The place of time [t] in its season. *)
Definition season_time_at (period phase t : F) : F :=
  div (remainder (add t phase) period) period.

End GeneratorVocabulary.

(** The pair that the slice starting at sample [j] yields: the input
    [series[j : j + window_size]] and the target
    [series[j + 1 : j + window_size + 1]]. *)
Definition window_pair {F} (window_size : Z) (series : list F) (j : nat)
  : list (list F) * list (list F) :=
  (tfdata.expand_dims
     (slice series (Some (Z.of_nat j)) (Some (Z.of_nat j + window_size))),
   tfdata.expand_dims
     (slice series (Some (Z.of_nat j + 1)) (Some (Z.of_nat j + window_size + 1)))).

(** The pairs in the order the shuffle buffer emits them: the buffer starts
    with the first [shuffle_buffer] pairs and is refilled from the rest. *)
Definition shuffled_pairs {F} (window_size shuffle_buffer : Z) (rand : list nat)
    (series : list F) : list (list (list F) * list (list F)) :=
  let pairs :=
    map (window_pair window_size series)
        (seq 0 (Z.to_nat (len series - window_size))) in
  tfdata.refill rand (take (Z.to_nat shuffle_buffer) pairs)
                     (drop (Z.to_nat shuffle_buffer) pairs).

(** * Properties *)

(** ** The embedding on small inputs *)

Example slice_negative_stop : slice [10; 20; 30; 40; 50] (Some 1) (Some (-1)) = [20; 30; 40].
Proof. reflexivity. Qed.

Example slice_negative_start : slice [10; 20; 30; 40; 50] (Some (-2)) None = [40; 50].
Proof. reflexivity. Qed.

Example slice_clamps : slice [10; 20; 30] (Some 1) (Some 7) = [20; 30].
Proof. reflexivity. Qed.

Example slice_crossed_bounds : slice [10; 20; 30] (Some 2) (Some 1) = [].
Proof. reflexivity. Qed.

Example slice_minus_zero_is_empty : slice [10; 20; 30] None (Some (- 0)) = [].
Proof. reflexivity. Qed.

Example range_negative : range (-3) = [].
Proof. reflexivity. Qed.

Example binop_shape_mismatch :
  np.binop Z.add [1; 2; 3] [1; 2] = Raised ValueError.
Proof. reflexivity. Qed.

Example binop_stretches_one : np.binop Z.add [10] [1; 2; 3] = Returned [11; 12; 13].
Proof. reflexivity. Qed.

Example mean_of_empty_window_is_nan : Float32.fmean [] = Float32.nan.
Proof. reflexivity. Qed.

Example window_keeps_short_tails :
  tfdata.window 3 1 false [1; 2; 3; 4]
  = Returned [[1; 2; 3]; [2; 3; 4]; [3; 4]; [4]].
Proof. reflexivity. Qed.

Example window_drops_short_tails :
  tfdata.window 3 1 true [1; 2; 3; 4] = Returned [[1; 2; 3]; [2; 3; 4]].
Proof. reflexivity. Qed.

Example batch_last_short :
  tfdata.batch 2 [1; 2; 3; 4; 5] = Returned [[1; 2]; [3; 4]; [5]].
Proof. reflexivity. Qed.

Example shuffle_small :
  tfdata.shuffle 2 [1; 0; 1; 1]%nat [10; 20; 30; 40] = Returned [20; 10; 30; 40].
Proof. reflexivity. Qed.

Example windowed_dataset_small :
  windowed_dataset [1; 2; 3; 4; 5] 2 2 1 []
  = Returned [[([[1]; [2]], [[2]; [3]]); ([[2]; [3]], [[3]; [4]])];
              [([[3]; [4]], [[4]; [5]])]].
Proof. reflexivity. Qed.

Lemma bind_Returned {A B} (a : A) (k : A -> outcome B) :
  (Returned a ≫= k) = k a.
Proof. reflexivity. Qed.

(** ** Slices *)

Section SliceFacts.
Context {A : Type}.
Implicit Types (l : list A) (a b i : Z).

Lemma adjust_index_in_range n i : 0 <= i <= n -> adjust_index n i = i.
Proof.
  intros Hi. unfold adjust_index.
  destruct (Z.ltb_spec i 0); lia.
Qed.

Lemma adjust_index_negative n i : - n <= i < 0 -> adjust_index n i = i + n.
Proof.
  intros Hi. unfold adjust_index.
  destruct (Z.ltb_spec i 0); lia.
Qed.

(** Both bounds inside the sequence: the slice is a [take] of a [drop]. *)
Lemma slice_inside l a b :
  0 <= a <= b -> b <= len l ->
  slice l (Some a) (Some b) = take (Z.to_nat (b - a)) (drop (Z.to_nat a) l).
Proof.
  intros Hab Hb. unfold slice.
  rewrite !adjust_index_in_range by (unfold len in *; lia).
  reflexivity.
Qed.

(** An omitted stop: the slice is a suffix. *)
Lemma slice_from l a :
  0 <= a -> slice l (Some a) None = drop (Z.to_nat a) l.
Proof.
  intros Ha. unfold slice, adjust_index.
  destruct (Z.ltb_spec a 0); [lia|].
  rewrite take_ge by (rewrite length_drop; unfold len; lia).
  destruct (Z.le_gt_cases a (len l)) as [Hle|Hgt].
  - rewrite Z.min_l by exact Hle. reflexivity.
  - rewrite Z.min_r by lia.
    rewrite !drop_ge by (unfold len in *; lia). reflexivity.
Qed.

(** An omitted start and a stop counted from the end: a prefix. *)
Lemma slice_until_back l b :
  0 < b <= len l ->
  slice l None (Some (- b)) = take (Z.to_nat (len l - b)) l.
Proof.
  intros Hb. unfold slice.
  rewrite adjust_index_negative by lia.
  rewrite Z.sub_0_r. simpl. f_equal. lia.
Qed.

(** A start inside and a stop counted from the end. *)
Lemma slice_inside_back l a b :
  0 <= a -> 0 < b -> a + b <= len l ->
  slice l (Some a) (Some (- b))
  = take (Z.to_nat (len l - b - a)) (drop (Z.to_nat a) l).
Proof.
  intros Ha Hb Hab. unfold slice.
  rewrite (adjust_index_in_range _ a), (adjust_index_negative _ (- b)) by lia.
  f_equal. lia.
Qed.

Lemma lookup_take_drop l (n k i : nat) :
  (i < n)%nat -> take n (drop k l) !! i = l !! (k + i)%nat.
Proof.
  intros Hi. rewrite lookup_take_lt by exact Hi. apply lookup_drop.
Qed.

End SliceFacts.

(** ** The moving average *)

Section ForecastFacts.
Context {F : Type} `{DType F}.
Implicit Types (series : list F).

(** The loop that appends one value per iteration is a [map]. *)
Lemma append_loop_map {X} (f : X -> F) (xs : list X) (acc : list F) :
  fold_left (fun forecast x => forecast ++ [f x]) xs acc = acc ++ map f xs.
Proof.
  revert acc. induction xs as [|x xs IH]; intros acc; simpl.
  - symmetry. apply app_nil_r.
  - rewrite IH, <- app_assoc. reflexivity.
Qed.

Lemma moving_average_forecast_map series w :
  moving_average_forecast series w
  = Returned (map (fun time => mean (slice series (Some time) (Some (time + w))))
                  (range (len series - w))).
Proof.
  unfold moving_average_forecast, np.array.
  rewrite append_loop_map. reflexivity.
Qed.

Lemma moving_average_forecast_lookup series w (i : nat) :
  Z.of_nat i < len series - w ->
  map (fun time => mean (slice series (Some time) (Some (time + w))))
      (range (len series - w)) !! i
  = Some (mean (slice series (Some (Z.of_nat i)) (Some (Z.of_nat i + w)))).
Proof.
  intros Hi. unfold range.
  change (map ?f ?l) with (f <$> l).
  rewrite list_lookup_fmap, lookup_seqZ_lt by exact Hi.
  reflexivity.
Qed.



End ForecastFacts.

(** C1.  For a positive window [w] the moving-average forecast returns
    (never raises) [len series - w] values, none when [w >= len series]; the
    value at [i] is the mean of the [w] samples [series[i : i + w]]; on the
    series 0..9 with [w = 3] (in binary32) the forecast is 1..7. *)
Theorem moving_average_forecast_windows :
  (forall (F : Type) (D : DType F) (series : list F) (w : Z),
      0 < w ->
      exists forecast,
        moving_average_forecast series w = Returned forecast
        /\ length forecast = Z.to_nat (len series - w)
        /\ (forall i, 0 <= i < len series - w ->
             forecast !! Z.to_nat i
             = Some (mean (slice series (Some i) (Some (i + w))))
             /\ slice series (Some i) (Some (i + w))
               = take (Z.to_nat w) (drop (Z.to_nat i) series)
             /\ length (slice series (Some i) (Some (i + w))) = Z.to_nat w)
        /\ (len series <= w -> forecast = []))
  /\ moving_average_forecast
       (map Float32.of_Z [0; 1; 2; 3; 4; 5; 6; 7; 8; 9]) 3
     = Returned (map Float32.of_Z [1; 2; 3; 4; 5; 6; 7]).
Proof.
  split; [|vm_compute; reflexivity].
  intros F D series w Hw.
  eexists. split; [apply moving_average_forecast_map|].
  split; [|split].
  - rewrite length_map. unfold range. apply length_seqZ.
  - intros i Hi.
    split; [|split].
    + rewrite <- (Z2Nat.id i) at 2 3 by lia.
      apply moving_average_forecast_lookup. lia.
    + rewrite slice_inside by lia. do 2 f_equal. lia.
    + rewrite slice_inside by lia.
      rewrite length_take, length_drop. unfold len in *. lia.
  - intros Hge. unfold range. rewrite seqZ_nil by lia. reflexivity.
Qed.

Lemma moving_average_forecast_windows_witness :
  exists forecast,
    moving_average_forecast (map Float32.of_Z [0; 1; 2; 3]) 2 = Returned forecast
    /\ length forecast = 2%nat.
Proof.
  destruct moving_average_forecast_windows as [Hgen _].
  destruct (Hgen Float32.t float32 (map Float32.of_Z [0; 1; 2; 3]) 2 ltac:(lia))
    as (forecast & Hret & Hlen & _).
  exists forecast. split; [exact Hret | exact Hlen].
Defined.

(** ** The naive forecast *)

Lemma naive_forecast_take_drop {F} (series : list F) (split : Z) :
  0 < split < len series ->
  naive_forecast split series
  = take (Z.to_nat (len series - split)) (drop (Z.to_nat (split - 1)) series).
Proof.
  intros Hs. unfold naive_forecast.
  pose proof (slice_inside_back series (split - 1) 1) as Hback.
  change (- (1)) with (-1) in Hback.
  rewrite Hback by lia.
  f_equal. lia.
Qed.

(** C4.  With [0 < split < T] the naive forecast has [T - split] values, its
    value at [i] is [series[split - 1 + i]], and its first value is
    [series[split - 1]]. *)
Theorem naive_forecast_previous_value :
  forall (F : Type) (series : list F) (split : Z),
    0 < split < len series ->
    length (naive_forecast split series) = Z.to_nat (len series - split)
    /\ (forall i, 0 <= i < len series - split ->
          exists x, series !! Z.to_nat (split - 1 + i) = Some x
                    /\ naive_forecast split series !! Z.to_nat i = Some x)
    /\ (exists x, series !! Z.to_nat (split - 1) = Some x
                  /\ naive_forecast split series !! 0%nat = Some x).
Proof.
  intros F series split Hs.
  rewrite naive_forecast_take_drop by exact Hs.
  assert (Hat : forall i, 0 <= i < len series - split ->
            exists x, series !! Z.to_nat (split - 1 + i) = Some x
              /\ take (Z.to_nat (len series - split))
                      (drop (Z.to_nat (split - 1)) series) !! Z.to_nat i = Some x).
  { intros i Hi.
    destruct (lookup_lt_is_Some_2 series (Z.to_nat (split - 1 + i))) as [x Hx].
    { unfold len in *. lia. }
    exists x. split; [exact Hx|].
    rewrite lookup_take_drop by lia.
    rewrite <- Hx. f_equal. lia. }
  split; [|split].
  - rewrite length_take, length_drop. unfold len in *. lia.
  - exact Hat.
  - destruct (Hat 0 ltac:(lia)) as (x & Hx & Hn).
    exists x. rewrite Z.add_0_r in Hx. split; [exact Hx | exact Hn].
Qed.

Lemma naive_forecast_previous_value_witness :
  length (naive_forecast 2 [10; 20; 30; 40]) = 2%nat
  /\ naive_forecast 2 [10; 20; 30; 40] !! 0%nat = Some 20.
Proof.
  destruct (naive_forecast_previous_value Z [10; 20; 30; 40] 2 ltac:(split; reflexivity))
    as (Hlen & _ & x & Hx & Hn).
  split; [exact Hlen|].
  rewrite Hn, <- Hx. reflexivity.
Defined.

(** ** Window of one sample *)

Lemma slice_until {A} (l : list A) (k : Z) :
  0 <= k -> slice l None (Some k) = take (Z.to_nat k) l.
Proof.
  intros Hk. unfold slice, adjust_index.
  destruct (Z.ltb_spec k 0); [lia|].
  rewrite Z.sub_0_r. change (Z.to_nat 0) with 0%nat. rewrite drop_0.
  destruct (Z.le_gt_cases k (len l)) as [Hle|Hgt].
  - rewrite Z.min_l by exact Hle. reflexivity.
  - rewrite Z.min_r by lia.
    rewrite !take_ge by (unfold len in *; lia). reflexivity.
Qed.




(** ** Differencing *)

Section DifferencingFacts.
Context {F : Type} `{DType F}.
Implicit Types (series : list F).

Lemma binop_same_length (f : F -> F -> F) (a b : list F) :
  length a = length b -> np.binop f a b = Returned (zip_with f a b).
Proof.
  intros Hlen. unfold np.binop.
  rewrite (proj2 (Nat.eqb_eq _ _) Hlen). reflexivity.
Qed.

(** The two operands of the subtraction are the series without its first
    [p] samples and without its last [p] samples. *)
Lemma diff_series_zip series p :
  0 < p <= len series ->
  diff_series p series
  = Returned (zip_with sub (drop (Z.to_nat p) series)
                           (take (Z.to_nat (len series - p)) series)).
Proof.
  intros Hp. unfold diff_series.
  rewrite slice_from, slice_until_back by lia.
  apply binop_same_length.
  rewrite length_drop, length_take. unfold len in *. lia.
Qed.

Lemma length_diff_series_zip series (p : nat) :
  length (zip_with sub (drop p series) (take (length series - p) series))
  = (length series - p)%nat.
Proof.
  rewrite length_zip_with_l_eq; rewrite ?length_drop, ?length_take; lia.
Qed.

Lemma lookup_diff_series_zip series (p k : nat) a b :
  series !! (p + k)%nat = Some a -> series !! k = Some b ->
  zip_with sub (drop p series) (take (length series - p) series) !! k
  = Some (sub a b).
Proof.
  intros Ha Hb.
  apply lookup_zip_with_Some. exists a, b.
  split; [reflexivity|]. split.
  - rewrite lookup_drop. exact Ha.
  - rewrite lookup_take_lt; [exact Hb|].
    apply lookup_lt_Some in Ha. lia.
Qed.

End DifferencingFacts.

(** C5, the claim as stated fails in binary32: on the series [100, 0.1]
    and period 1 the difference 0.1 - 100 is rounded, and adding 100 back
    gives 0.0999984741..., not 0.1. *)
Lemma diff_series_round_trip_inexact :
  let series := [Float32.of_Z 100; Float32.of_scaled 13421773 (-27)] in
  exists d x a b,
    0 < 1 <= len series
    /\ diff_series 1 series = Returned d
    /\ d !! Z.to_nat (1 - 1) = Some x
    /\ series !! Z.to_nat (1 - 1) = Some b
    /\ series !! Z.to_nat 1 = Some a
    /\ Float32.eqb (add x b) a = false
    /\ add x b <> a.
Proof.
  eexists _, _, _, _.
  repeat split; try reflexivity; vm_compute; congruence.
Qed.

(** C5, amended.  For [0 < p <= len series] the differenced series has
    [len series - p] values and [diff_series[t - p]] is the difference
    [series[t] - series[t - p]] as the element type computes it; adding
    [series[t - p]] back gives [series[t]] at every [t] where that
    subtraction followed by the addition is exact. *)
Theorem diff_series_round_trip :
  forall (F : Type) (D : DType F) (series : list F) (p : Z),
    0 < p <= len series ->
    exists d,
      diff_series p series = Returned d
      /\ length d = Z.to_nat (len series - p)
      /\ forall t, p <= t < len series ->
           exists a b,
             series !! Z.to_nat t = Some a
             /\ series !! Z.to_nat (t - p) = Some b
             /\ d !! Z.to_nat (t - p) = Some (sub a b)
             /\ (add (sub a b) b = a ->
                 exists x, d !! Z.to_nat (t - p) = Some x /\ add x b = a).
Proof.
  intros F D series p Hp.
  eexists. split; [apply diff_series_zip; exact Hp|].
  replace (Z.to_nat (len series - p)) with (length series - Z.to_nat p)%nat
    by (unfold len; lia).
  split; [apply length_diff_series_zip|].
  intros t Ht.
  destruct (lookup_lt_is_Some_2 series (Z.to_nat t)) as [a Ha].
  { unfold len in *. lia. }
  destruct (lookup_lt_is_Some_2 series (Z.to_nat (t - p))) as [b Hb].
  { unfold len in *. lia. }
  exists a, b.
  assert (Hd : zip_with sub (drop (Z.to_nat p) series)
                 (take (length series - Z.to_nat p) series) !! Z.to_nat (t - p)
               = Some (sub a b)).
  { apply lookup_diff_series_zip; [|exact Hb].
    rewrite <- Ha. f_equal. lia. }
  split; [exact Ha|]. split; [exact Hb|]. split; [exact Hd|].
  intros Hexact. exists (sub a b). split; [exact Hd | exact Hexact].
Qed.

Lemma diff_series_round_trip_witness :
  exists d x,
    diff_series 1 (map Float32.of_Z [3; 5; 9]) = Returned d
    /\ length d = 2%nat
    /\ d !! 0%nat = Some x
    /\ add x (Float32.of_Z 3) = Float32.of_Z 5.
Proof.
  destruct (diff_series_round_trip Float32.t float32
              (map Float32.of_Z [3; 5; 9]) 1 ltac:(split; [reflexivity | discriminate]))
    as (d & Hret & Hlen & Hat).
  destruct (Hat 1 ltac:(split; [discriminate | reflexivity]))
    as (a & b & Ha & Hb & _ & Hexact).
  injection Ha as <-. injection Hb as <-.
  destruct (Hexact ltac:(vm_compute; reflexivity)) as (x & Hx & Hsum).
  exists d, x. repeat split; assumption.
Defined.

(** ** The differenced moving average, brought back to scale *)

Section AlignmentFacts.
Context {F : Type} `{DType F}.
Implicit Types (series : list F).

Lemma lookup_nth series (n : nat) (d : F) :
  (n < length series)%nat -> series !! n = Some (nth n series d).
Proof.
  intros Hn. destruct (nth_lookup_or_length series n d) as [Hl|Hl]; [exact Hl | lia].
Qed.

(** A window of the differenced series, read on the time axis of the
    series: the window that starts at index [j] holds the differences of
    times [j + period], ..., [j + period + window - 1]. *)
Lemma diff_window series (d : F) (period window j : Z) :
  0 < period -> 0 < window -> 0 <= j ->
  j + window + period <= len series ->
  slice (zip_with sub (drop (Z.to_nat period) series)
                      (take (Z.to_nat (len series - period)) series))
        (Some j) (Some (j + window))
  = diffs_before period window series d (j + period + window).
Proof.
  intros Hp Hw Hj Hfit.
  replace (Z.to_nat (len series - period))
    with (length series - Z.to_nat period)%nat by (unfold len; lia).
  rewrite slice_inside
    by (unfold len; rewrite ?length_diff_series_zip; unfold len in *; lia).
  apply list_eq. intros k.
  unfold diffs_before. change (map ?f ?l) with (f <$> l).
  rewrite list_lookup_fmap.
  destruct (decide (Z.of_nat k < window)) as [Hk|Hk].
  - rewrite lookup_take_drop by lia.
    rewrite lookup_seqZ_lt by exact Hk. simpl. unfold diff_at.
    apply lookup_diff_series_zip.
    + rewrite (lookup_nth _ _ d) by (unfold len in *; lia).
      do 2 f_equal. lia.
    + rewrite (lookup_nth _ _ d) by (unfold len in *; lia).
      do 2 f_equal. lia.
  - rewrite lookup_take_ge by lia.
    rewrite lookup_seqZ_ge by lia. reflexivity.
Qed.

(** The forecast in closed form, for any split, period and window that fit:
    the value for validation index [i] is [series[split + i - period]] plus
    the mean of the [window] differences before time [split + i]. *)
Lemma diff_moving_avg_plus_past_closed series (d : F) (split period window : Z) :
  0 < period -> 0 < window ->
  period + window <= split -> split <= len series ->
  diff_moving_avg_plus_past split period window series
  = Returned
      (map (fun i =>
              add (nth (Z.to_nat (split + i - period)) series d)
                  (mean (diffs_before period window series d (split + i))))
           (seqZ 0 (len series - split))).
Proof.
  intros Hp Hw Hsplit HT.
  unfold diff_moving_avg_plus_past, diff_moving_avg.
  rewrite diff_series_zip by lia. rewrite bind_Returned.
  rewrite moving_average_forecast_map. rewrite !bind_Returned.
  set (ds := zip_with sub _ _).
  assert (Hds : len ds = len series - period).
  { unfold ds, len.
    replace (Z.to_nat (Z.of_nat (length series) - period))
      with (length series - Z.to_nat period)%nat by lia.
    rewrite length_diff_series_zip. unfold len in HT. lia. }
  rewrite slice_from by lia.
  rewrite (slice_inside_back series (split - period) period) by lia.
  rewrite binop_same_length.
  2:{ rewrite length_take, !length_drop, length_map.
      unfold range. rewrite length_seqZ. unfold len in *. lia. }
  f_equal. apply list_eq. intros i.
  change (map ?f ?l) with (f <$> l).
  rewrite (list_lookup_fmap _ (seqZ 0 _)).
  destruct (decide (Z.of_nat i < len series - split)) as [Hi|Hi].
  - rewrite lookup_seqZ_lt by exact Hi. simpl.
    apply lookup_zip_with_Some.
    eexists _, _. split; [reflexivity|]. split.
    + rewrite lookup_take_drop by lia.
      rewrite (lookup_nth _ _ d) by (unfold len in *; lia).
      do 2 f_equal. lia.
    + rewrite lookup_drop.
      replace (Z.to_nat (split - period - window) + i)%nat
        with (Z.to_nat (split - period - window + Z.of_nat i)) by lia.
      rewrite list_lookup_fmap. unfold range.
      rewrite lookup_seqZ_lt by lia. simpl.
      do 2 f_equal.
      rewrite Z2Nat.id by lia.
      unfold ds.
      rewrite (diff_window series d) by lia.
      f_equal. lia.
  - rewrite lookup_seqZ_ge by lia. simpl.
    apply lookup_ge_None_2.
    rewrite length_zip_with, length_take, !length_drop.
    unfold len in *. lia.
Qed.

End AlignmentFacts.

(** C2.  In the run of the script (1461 samples, split 1000, period 365,
    window 50) the reconstructed forecast has [T - split = 461] values, and
    its value at validation index [i] is [past + mean diffs], where [past] is
    [series[split + i - period]] and [diffs] holds the 50 differences
    [series[t] - series[t - period]] for [t] from [split + i - 50] to
    [split + i - 1], in that order. *)
Theorem diff_moving_avg_plus_past_alignment :
  forall (F : Type) (D : DType F) (series : list F),
    len series = Run.T ->
    exists forecast,
      diff_moving_avg_plus_past Run.split_time Run.period Run.window series
      = Returned forecast
      /\ len forecast = Run.T - Run.split_time
      /\ forall i, 0 <= i < Run.T - Run.split_time ->
           exists past diffs,
             series !! Z.to_nat (Run.split_time + i - Run.period) = Some past
             /\ len diffs = Run.window
             /\ (forall t,
                   Run.split_time + i - Run.window <= t < Run.split_time + i ->
                   exists a b,
                     series !! Z.to_nat t = Some a
                     /\ series !! Z.to_nat (t - Run.period) = Some b
                     /\ diffs !! Z.to_nat (t - (Run.split_time + i - Run.window))
                        = Some (sub a b))
             /\ forecast !! Z.to_nat i = Some (add past (mean diffs)).
Proof.
  intros F D series HT.
  assert (HTv : Run.T = 1461) by reflexivity.
  assert (Hsv : Run.split_time = 1000) by reflexivity.
  assert (Hpv : Run.period = 365) by reflexivity.
  assert (Hwv : Run.window = 50) by reflexivity.
  destruct series as [|d rest] eqn:Hseries; [discriminate HT|].
  rewrite <- Hseries in *. clear Hseries rest.
  eexists. split.
  { apply (diff_moving_avg_plus_past_closed series d); lia. }
  split.
  - unfold len at 1. rewrite length_map, length_seqZ. lia.
  - intros i Hi.
    exists (nth (Z.to_nat (Run.split_time + i - Run.period)) series d),
           (diffs_before Run.period Run.window series d (Run.split_time + i)).
    split; [apply lookup_nth; unfold len in HT; lia|].
    split; [unfold diffs_before, len; rewrite length_map, length_seqZ; lia|].
    split.
    + intros t Ht.
      exists (nth (Z.to_nat t) series d), (nth (Z.to_nat (t - Run.period)) series d).
      split; [apply lookup_nth; unfold len in HT; lia|].
      split; [apply lookup_nth; unfold len in HT; lia|].
      unfold diffs_before. change (map ?f ?l) with (f <$> l).
      rewrite list_lookup_fmap, lookup_seqZ_lt by lia.
      simpl. unfold diff_at. do 3 f_equal; lia.
    + change (map ?f ?l) with (f <$> l).
      rewrite (list_lookup_fmap _ (seqZ 0 _)).
      rewrite lookup_seqZ_lt by (rewrite Z2Nat.id; lia).
      rewrite Z2Nat.id by lia. reflexivity.
Qed.

Lemma diff_moving_avg_plus_past_alignment_witness :
  exists forecast,
    diff_moving_avg_plus_past Run.split_time Run.period Run.window
      (map Float32.of_Z (seqZ 0 Run.T)) = Returned forecast
    /\ len forecast = Run.T - Run.split_time.
Proof.
  destruct (diff_moving_avg_plus_past_alignment Float32.t float32
              (map Float32.of_Z (seqZ 0 Run.T))
              ltac:(vm_compute; reflexivity))
    as (forecast & Hret & Hlen & _).
  exists forecast. split; [exact Hret | exact Hlen].
Defined.

(** ** Arguments are not validated *)




(** ** Seeded noise *)

Section NoiseFacts.
Context {F : Type} `{DType F} {rng : Type}.
Variable init_genrand : Z -> rng.
Variable gauss : rng -> F * rng.

Lemma length_randn (n : nat) (rnd : rng) :
  length (randn gauss n rnd).1 = n.
Proof.
  revert rnd. induction n as [|n IH]; intros rnd; simpl; [reflexivity|].
  destruct (gauss rnd) as [x rnd1].
  specialize (IH rnd1). destruct (randn gauss n rnd1) as [xs rnd2].
  simpl in *. congruence.
Qed.

(** With a seed in range, the call returns the scaled draws of the
    generator made from that seed and leaves the process as it was. *)
Lemma noise_seeded time noise_level (seed : Z) (w : process) :
  0 <= seed < 2 ^ 32 ->
  noise init_genrand gauss time noise_level (Some seed) w
  = (Returned (map (fun x => mul x noise_level)
                   (randn gauss (length time) (init_genrand seed)).1), w).
Proof.
  intros Hseed. unfold noise, RandomState.
  rewrite bool_decide_eq_true_2 by exact Hseed. reflexivity.
Qed.

(** With a seed out of range, the call raises whatever the process. *)
Lemma noise_bad_seed time noise_level (seed : Z) (w : process) :
  ~ 0 <= seed < 2 ^ 32 ->
  noise init_genrand gauss time noise_level (Some seed) w
  = (Raised ValueError, w).
Proof.
  intros Hseed. unfold noise, RandomState.
  rewrite bool_decide_eq_false_2 by exact Hseed. reflexivity.
Qed.

Lemma noise_given_seed_any_process time noise_level (seed : Z) (w w' : process) :
  (noise init_genrand gauss time noise_level (Some seed) w).1
  = (noise init_genrand gauss time noise_level (Some seed) w').1.
Proof.
  destruct (decide (0 <= seed < 2 ^ 32)) as [Hs|Hs].
  - rewrite !noise_seeded by exact Hs. reflexivity.
  - rewrite !noise_bad_seed by exact Hs. reflexivity.
Qed.

End NoiseFacts.

(** C8.  Two calls of [noise] with the same integer seed have the same
    outcome whatever the state of the process at each call; with a seed that
    [RandomState] accepts (in [0, 2^32)) both return the same sequence, of
    [len time] values. *)
Theorem noise_same_seed_same_sequence :
  forall (F : Type) (D : DType F) (rng : Type)
         (init_genrand : Z -> rng) (gauss : rng -> F * rng)
         (time : list F) (noise_level : F) (seed : Z) (w1 w2 : process),
    (noise init_genrand gauss time noise_level (Some seed) w1).1
    = (noise init_genrand gauss time noise_level (Some seed) w2).1
    /\ (0 <= seed < 2 ^ 32 ->
        exists values,
          (noise init_genrand gauss time noise_level (Some seed) w1).1
          = Returned values
          /\ (noise init_genrand gauss time noise_level (Some seed) w2).1
             = Returned values
          /\ length values = length time).
Proof.
  intros F D rng init_genrand gauss time noise_level seed w1 w2.
  split; [apply noise_given_seed_any_process|].
  intros Hseed.
  eexists. rewrite !noise_seeded by exact Hseed.
  split; [reflexivity|]. split; [reflexivity|].
  rewrite length_map. apply length_randn.
Qed.

(** C10.  [noise] leaves the hidden generator of the process as it was and
    does not read it, whatever the seed; with a given seed its result is the
    same in every state of the process, so after any draws from the hidden
    generator, before the call or between two calls. *)
Theorem noise_frames_global_generator :
  forall (F : Type) (D : DType F) (rng : Type)
         (init_genrand : Z -> rng) (gauss : rng -> F * rng)
         (time : list F) (noise_level : F) (w : process),
    (forall seed,
        global_rand (noise init_genrand gauss time noise_level seed w).2
        = global_rand w)
    /\ (forall seed g,
          (noise init_genrand gauss time noise_level seed (with_global_rand g w)).1
          = (noise init_genrand gauss time noise_level seed w).1)
    /\ (forall (seed : Z) (w' : process),
          (noise init_genrand gauss time noise_level (Some seed) w').1
          = (noise init_genrand gauss time noise_level (Some seed) w).1)
    /\ (forall (seed : Z) (n : nat),
          (noise init_genrand gauss time noise_level (Some seed)
                 (np_random_randn gauss n w).2).1
          = (noise init_genrand gauss time noise_level (Some seed) w).1)
    /\ (forall (seed : Z) (n : nat),
          let w1 := (noise init_genrand gauss time noise_level (Some seed) w).2 in
          let w2 := (np_random_randn gauss n w1).2 in
          (noise init_genrand gauss time noise_level (Some seed) w2).1
          = (noise init_genrand gauss time noise_level (Some seed) w).1)
    /\ (forall (seed reseed : Z),
          (noise init_genrand gauss time noise_level (Some seed)
                 (np_random_seed init_genrand reseed w).2).1
          = (noise init_genrand gauss time noise_level (Some seed) w).1).
Proof.
  intros F D rng init_genrand gauss time noise_level w.
  split; [|split; [|split; [|split; [|split]]]];
    [| | | | |intros seed reseed; apply noise_given_seed_any_process].
  - intros [seed|]; unfold noise, RandomState; [|reflexivity].
    destruct (bool_decide (0 <= seed < 2 ^ 32)); reflexivity.
  - intros [seed|] g; unfold noise, RandomState; [|reflexivity].
    destruct (bool_decide (0 <= seed < 2 ^ 32)); reflexivity.
  - intros seed w'. apply noise_given_seed_any_process.
  - intros seed n. apply noise_given_seed_any_process.
  - intros seed n w1 w2. apply noise_given_seed_any_process.
Qed.

Lemma noise_same_seed_same_sequence_witness :
  exists values,
    (noise (fun s : Z => s) (fun g : Z => (Float32.of_Z g, g + 1))
           (map Float32.of_Z [0; 1; 2]) (Float32.of_Z 5) (Some 42)
           {| global_rand := 7; os_entropy := fun _ => 0; os_reads := 0 |}).1
    = Returned values
    /\ length values = 3%nat.
Proof.
  destruct (noise_same_seed_same_sequence Float32.t float32 Z
              (fun s : Z => s) (fun g : Z => (Float32.of_Z g, g + 1))
              (map Float32.of_Z [0; 1; 2]) (Float32.of_Z 5) 42
              {| global_rand := 7; os_entropy := fun _ => 0; os_reads := 0 |}
              {| global_rand := 8; os_entropy := fun _ => 1; os_reads := 3 |})
    as [_ Hvalid].
  destruct (Hvalid ltac:(split; [discriminate | reflexivity]))
    as (values & Hret & _ & Hlen).
  exists values. split; [exact Hret | exact Hlen].
Defined.

(** ** Supervised windows *)

Section DatasetFacts.
Context {A : Type}.
Implicit Types (ds buf rest : list A).

(** Stride one, short windows dropped: one window per start at which a
    full window fits. *)
Lemma full_windows (size : nat) ds :
  (0 < size)%nat ->
  filter (fun w => length w = size) (tfdata.windows_from (length ds) size 1 ds)
  = map (fun j => take size (drop j ds)) (seq 0 (S (length ds) - size)).
Proof.
  intros Hsize. induction ds as [|x ds IH].
  - simpl. replace (1 - size)%nat with 0%nat by lia. reflexivity.
  - cbn [length tfdata.windows_from]. rewrite drop_0 || idtac.
    change (drop 1 (x :: ds)) with ds.
    destruct (decide (size <= S (length ds))%nat) as [Hfit|Hshort].
    + rewrite filter_cons_True
        by (rewrite length_take; cbn [length]; lia).
      rewrite IH.
      replace (S (S (length ds)) - size)%nat
        with (S (S (length ds) - size)) by lia.
      cbn [seq map]. f_equal.
      rewrite <- fmap_S_seq.
      change (map ?f (S <$> ?l)) with (f <$> (S <$> l)).
      rewrite <- list_fmap_compose. reflexivity.
    + rewrite filter_cons_False
        by (rewrite length_take; cbn [length]; lia).
      rewrite IH.
      replace (S (length ds) - size)%nat with 0%nat by lia.
      replace (S (S (length ds)) - size)%nat with 0%nat by lia.
      reflexivity.
Qed.

Lemma chunks_nil (fuel n : nat) : tfdata.chunks fuel n (@nil A) = [].
Proof. destruct fuel; reflexivity. Qed.

(** Batching keeps the elements and their order. *)
Lemma concat_chunks (fuel n : nat) ds :
  (0 < n)%nat -> (length ds <= fuel)%nat ->
  concat (tfdata.chunks fuel n ds) = ds.
Proof.
  intros Hn. revert ds. induction fuel as [|fuel IH]; intros ds Hfuel.
  - destruct ds; [reflexivity | simpl in Hfuel; lia].
  - destruct ds as [|x ds]; [reflexivity|].
    cbn [tfdata.chunks concat].
    rewrite IH.
    + apply take_drop.
    + rewrite length_drop. simpl in *. lia.
Qed.

(** A window of exactly [size] elements is one batch of [size]. *)
Lemma batch_full_window (size : Z) (w : list A) :
  0 < size -> length w = Z.to_nat size ->
  tfdata.batch size w = Returned [w].
Proof.
  intros Hsize Hlen. unfold tfdata.batch.
  rewrite bool_decide_eq_true_2 by exact Hsize.
  destruct w as [|x w]; [simpl in Hlen; lia|].
  rewrite Hlen. destruct (Z.to_nat size) as [|n] eqn:Hn; [lia|].
  cbn [tfdata.chunks].
  rewrite take_ge, drop_ge, chunks_nil by lia. reflexivity.
Qed.

Lemma flat_map_batch_full (size : Z) (ws : list (list A)) :
  0 < size -> Forall (fun w => length w = Z.to_nat size) ws ->
  tfdata.flat_map (fun window => tfdata.batch size window) ws = Returned ws.
Proof.
  intros Hsize Hall. induction Hall as [|w ws Hw Hall IH]; [reflexivity|].
  cbn [tfdata.flat_map].
  rewrite batch_full_window, bind_Returned, IH, bind_Returned by assumption.
  reflexivity.
Qed.

Lemma mod_slot (r : nat) buf :
  buf <> [] -> is_Some (buf !! (r `mod` length buf)%nat).
Proof.
  intros Hbuf. apply lookup_lt_is_Some_2.
  apply Nat.mod_upper_bound. destruct buf; [congruence | simpl; lia].
Qed.

(** Emptying the buffer emits each of its elements once. *)
Lemma drain_Permutation (fuel : nat) (rand : list nat) buf :
  (length buf <= fuel)%nat -> tfdata.drain fuel rand buf ≡ₚ buf.
Proof.
  revert rand buf. induction fuel as [|fuel IH]; intros rand buf Hfuel.
  - destruct buf; [reflexivity | simpl in Hfuel; lia].
  - cbn [tfdata.drain].
    destruct (decide (buf = [])) as [->|Hbuf].
    { destruct (hd 0%nat rand `mod` length (@nil A))%nat; reflexivity. }
    destruct (mod_slot (hd 0%nat rand) buf Hbuf) as [x Hx].
    rewrite Hx.
    rewrite IH.
    + symmetry. apply delete_Permutation. exact Hx.
    + rewrite length_delete by (eexists; exact Hx). lia.
Qed.

(** Emitting a slot and refilling it from the input loses and repeats
    nothing. *)
Lemma refill_Permutation (rand : list nat) buf rest :
  buf <> [] \/ rest = [] -> tfdata.refill rand buf rest ≡ₚ buf ++ rest.
Proof.
  revert rand buf. induction rest as [|y rest IH]; intros rand buf Hne.
  - cbn [tfdata.refill]. rewrite app_nil_r.
    apply drain_Permutation. lia.
  - destruct Hne as [Hbuf|Hrest]; [|discriminate Hrest].
    cbn [tfdata.refill].
    destruct (mod_slot (hd 0%nat rand) buf Hbuf) as [x Hx].
    set (i := (hd 0%nat rand `mod` length buf)%nat) in *.
    rewrite Hx.
    rewrite IH.
    2:{ left. intros Hnil. apply (f_equal length) in Hnil.
        rewrite length_insert in Hnil.
        destruct buf; [congruence | simpl in Hnil; lia]. }
    rewrite insert_take_drop by (eapply lookup_lt_Some; exact Hx).
    pose proof (take_drop_middle buf i x Hx) as Hmid.
    set (before := take i buf) in *. set (after := drop (S i) buf) in *.
    rewrite <- Hmid.
    rewrite <- !app_assoc. cbn [app].
    rewrite <- !Permutation_middle.
    reflexivity.
Qed.

Lemma shuffle_Permutation (buffer_size : Z) (rand : list nat) ds :
  0 < buffer_size ->
  exists shuffled,
    tfdata.shuffle buffer_size rand ds = Returned shuffled /\ shuffled ≡ₚ ds.
Proof.
  intros Hb. unfold tfdata.shuffle.
  rewrite bool_decide_eq_true_2 by exact Hb.
  eexists. split; [reflexivity|].
  rewrite refill_Permutation.
  - rewrite take_drop. reflexivity.
  - destruct ds as [|x ds]; [right; apply drop_nil|].
    left. destruct (Z.to_nat buffer_size) eqn:Hn; [lia | discriminate].
Qed.

End DatasetFacts.

Section WindowedDatasetFacts.
Context {F : Type}.
Implicit Types (series : list F).

(** Splitting a full slice of [window_size + 1] samples into its first and
    its last [window_size] samples. *)
Lemma split_full_window (window_size : Z) series (j : nat) :
  0 <= window_size ->
  Z.of_nat j + window_size + 1 <= len series ->
  let window :=
    take (Z.to_nat (window_size + 1)) (drop j (tfdata.expand_dims series)) in
  (slice window None (Some (-1)), slice window (Some 1) None)
  = window_pair window_size series j.
Proof.
  intros Hw Hfit window.
  assert (Hlen : length window = S (Z.to_nat window_size)).
  { unfold window, tfdata.expand_dims.
    rewrite length_take, length_drop, length_map. unfold len in *. lia. }
  unfold window_pair, tfdata.expand_dims. f_equal.
  - pose proof (slice_until_back window 1) as Hback.
    change (- (1)) with (-1) in Hback.
    rewrite Hback by (unfold len; lia).
    rewrite slice_inside by lia.
    unfold len. rewrite Hlen. unfold window.
    rewrite take_take.
    change (map ?f ?l) with (f <$> l).
    rewrite fmap_take, fmap_drop.
    rewrite Nat2Z.id. f_equal. lia.
  - rewrite slice_from by lia.
    rewrite slice_inside by lia.
    unfold window.
    change (map ?f ?l) with (f <$> l).
    rewrite fmap_take, fmap_drop.
    replace (Z.to_nat (window_size + 1)) with (1 + Z.to_nat window_size)%nat by lia.
    rewrite <- take_drop_commute, drop_drop.
    change (Z.to_nat 1) with 1%nat.
    f_equal; [lia|]. f_equal. lia.
Qed.

End WindowedDatasetFacts.

(** C9.  For a window size [w >= 0] and positive batch and buffer sizes,
    the dataset is built without error and its pairs are, up to the order
    the shuffle gives them, exactly one pair per start [j] at which a slice of
    [w + 1] samples fits ([0 <= j < len series - w]): the input is
    [series[j : j + w]] and the target [series[j + 1 : j + w + 1]], both of
    [w] samples. *)
Theorem windowed_dataset_pairs :
  forall (F : Type) (series : list F)
         (window_size batch_size shuffle_buffer : Z) (rand : list nat),
    0 <= window_size -> 0 < batch_size -> 0 < shuffle_buffer ->
    exists dataset,
      windowed_dataset series window_size batch_size shuffle_buffer rand
      = Returned dataset
      /\ unbatch dataset
         ≡ₚ map (window_pair window_size series)
                (seq 0 (Z.to_nat (len series - window_size)))
      /\ Forall (fun pair => length pair.1 = Z.to_nat window_size
                             /\ length pair.2 = Z.to_nat window_size)
                (unbatch dataset).
Proof.
  intros F series w b sb rand Hw Hb Hsb.
  unfold windowed_dataset, tfdata.from_tensor_slices, tfdata.window.
  rewrite bool_decide_eq_true_2 by lia.
  rewrite bind_Returned.
  change (Z.to_nat 1) with 1%nat.
  rewrite full_windows by lia.
  set (ws := map _ (seq 0 _)).
  rewrite flat_map_batch_full; [|lia|].
  2:{ apply Forall_forall. intros win Hin.
      apply list_elem_of_fmap in Hin as (j & -> & Hj).
      apply list_elem_of_In, in_seq in Hj.
      unfold tfdata.expand_dims in *.
      rewrite length_take, length_drop. rewrite length_map in *. lia. }
  rewrite bind_Returned.
  destruct (shuffle_Permutation sb rand ws Hsb) as (shuffled & -> & Hperm).
  rewrite bind_Returned.
  unfold tfdata.batch. rewrite bool_decide_eq_true_2 by exact Hb.
  rewrite bind_Returned.
  eexists. split; [reflexivity|].
  assert (Hpairs :
    unbatch (tfdata.prefetch 1
      (tfdata.chunks
         (length (tfdata.map (fun window => (slice window None (Some (-1)),
                                             slice window (Some 1) None)) shuffled))
         (Z.to_nat b)
         (tfdata.map (fun window => (slice window None (Some (-1)),
                                     slice window (Some 1) None)) shuffled)))
    ≡ₚ map (window_pair w series) (seq 0 (Z.to_nat (len series - w)))).
  { unfold unbatch, tfdata.prefetch.
    rewrite concat_chunks by lia.
    unfold tfdata.map. rewrite Hperm. unfold ws.
    rewrite map_map.
    replace (S (length (tfdata.expand_dims series)) - Z.to_nat (w + 1))%nat
      with (Z.to_nat (len series - w))
      by (unfold tfdata.expand_dims, len; rewrite length_map; lia).
    apply Permutation_refl'.
    apply map_ext_in. intros j Hj. apply in_seq in Hj.
    apply (split_full_window w series j Hw). unfold len in *. lia. }
  split; [exact Hpairs|].
  eapply Permutation_Forall; [symmetry; exact Hpairs|].
  apply Forall_forall. intros pair Hin.
  apply list_elem_of_fmap in Hin as (j & -> & Hj).
  apply list_elem_of_In, in_seq in Hj.
  unfold window_pair, tfdata.expand_dims. cbn [fst snd].
  rewrite !length_map, !slice_inside by (unfold len in *; lia).
  rewrite !length_take, !length_drop. unfold len in *. lia.
Qed.

Lemma windowed_dataset_pairs_witness :
  exists dataset,
    windowed_dataset [1; 2; 3; 4; 5; 6] 2 3 2 [1; 0; 1; 1]%nat = Returned dataset
    /\ unbatch dataset
       ≡ₚ map (window_pair 2 [1; 2; 3; 4; 5; 6]) (seq 0 4).
Proof.
  destruct (windowed_dataset_pairs Z [1; 2; 3; 4; 5; 6] 2 3 2 [1; 0; 1; 1]%nat
              ltac:(discriminate) ltac:(reflexivity) ltac:(reflexivity))
    as (dataset & Hret & Hperm & _).
  exists dataset. split; [exact Hret | exact Hperm].
Defined.

(** * Further properties of the scripts *)

(** ** Splitting *)

Section SplitFacts.
Context {A : Type}.
Implicit Types (l series : list A).

Lemma adjust_index_bounds (n i : Z) : 0 <= n -> 0 <= adjust_index n i <= n.
Proof.
  intros Hn. unfold adjust_index. destruct (Z.ltb_spec i 0); lia.
Qed.

Lemma slice_prefix l (k : Z) :
  slice l None (Some k) = take (Z.to_nat (adjust_index (len l) k)) l.
Proof.
  unfold slice. rewrite Z.sub_0_r. change (Z.to_nat 0) with 0%nat.
  rewrite drop_0. reflexivity.
Qed.

Lemma slice_suffix l (k : Z) :
  slice l (Some k) None = drop (Z.to_nat (adjust_index (len l) k)) l.
Proof.
  unfold slice. apply take_ge.
  pose proof (adjust_index_bounds (len l) k ltac:(unfold len; lia)).
  rewrite length_drop. unfold len in *. lia.
Qed.

(** A stop counted from the end is the stop at that place. *)
Lemma slice_back_is_inside l (a b : Z) :
  0 < b <= len l ->
  slice l (Some a) (Some (- b)) = slice l (Some a) (Some (len l - b)).
Proof.
  intros Hb. unfold slice.
  rewrite (adjust_index_negative _ (- b)), (adjust_index_in_range _ (len l - b)) by lia.
  do 2 f_equal. lia.
Qed.

(** A slice of a slice, all bounds inside. *)
Lemma slice_slice l (a b i j : Z) :
  0 <= a <= b -> b <= len l -> 0 <= i <= j -> j <= b - a ->
  slice (slice l (Some a) (Some b)) (Some i) (Some j)
  = slice l (Some (a + i)) (Some (a + j)).
Proof.
  intros Hab Hb Hij Hj.
  rewrite (slice_inside l a b) by lia.
  rewrite (slice_inside l (a + i) (a + j)) by lia.
  rewrite slice_inside
    by (try lia; unfold len in *; rewrite length_take, length_drop; lia).
  apply list_eq. intros k.
  destruct (decide (k < Z.to_nat (j - i))%nat) as [Hk|Hk].
  - rewrite !lookup_take_drop by lia. f_equal. lia.
  - rewrite !lookup_take_ge by lia. reflexivity.
Qed.

End SplitFacts.

(** X1.  The training and validation parts are a partition of the series
    at every integer split point, negative and out-of-range ones included;
    with [0 <= split <= T] they have [split] and [T - split] values. *)
Theorem train_valid_partition :
  forall (A : Type) (series : list A) (split_time : Z),
    x_train split_time series ++ x_valid split_time series = series
    /\ (0 <= split_time <= len series ->
        len (x_train split_time series) = split_time
        /\ len (x_valid split_time series) = len series - split_time).
Proof.
  intros A series split. unfold x_train, x_valid.
  rewrite slice_prefix, slice_suffix.
  split; [apply take_drop|].
  intros Hs. rewrite adjust_index_in_range by exact Hs.
  unfold len in *. rewrite length_take, length_drop. lia.
Qed.

Lemma train_valid_partition_witness :
  len (x_train 2 [10; 20; 30; 40; 50]) = 2
  /\ len (x_valid 2 [10; 20; 30; 40; 50]) = 5 - 2.
Proof.
  destruct (train_valid_partition Z [10; 20; 30; 40; 50] 2) as [_ Hlen].
  exact (Hlen ltac:(split; discriminate)).
Defined.

(** X2.  With [0 < split < T] the naive forecast is the validation part
    delayed by one step: without its first value it is the validation part
    without its last value. *)
Theorem naive_forecast_lags_validation :
  forall (A : Type) (series : list A) (split_time : Z),
    0 < split_time < len series ->
    slice (naive_forecast split_time series) (Some 1) None
    = slice (x_valid split_time series) None (Some (-1))
    /\ len (naive_forecast split_time series) = len (x_valid split_time series).
Proof.
  intros A series split Hs.
  rewrite naive_forecast_take_drop by exact Hs.
  unfold x_valid. rewrite (slice_from series split) by lia.
  assert (Hlen : len (drop (Z.to_nat split) series) = len series - split).
  { unfold len in *. rewrite length_drop. lia. }
  split.
  - rewrite slice_from by lia.
    pose proof (slice_until_back (drop (Z.to_nat split) series) 1) as Hback.
    change (- (1)) with (-1) in Hback.
    rewrite Hback by lia. rewrite Hlen.
    change (Z.to_nat 1) with 1%nat.
    replace (Z.to_nat (len series - split))
      with (1 + Z.to_nat (len series - split - 1))%nat by lia.
    rewrite <- take_drop_commute, drop_drop.
    do 2 f_equal. lia.
  - rewrite Hlen. unfold len in *. rewrite length_take, length_drop. lia.
Qed.

Lemma naive_forecast_lags_validation_witness :
  slice (naive_forecast 2 [10; 20; 30; 40; 50]) (Some 1) None
  = slice (x_valid 2 [10; 20; 30; 40; 50]) None (Some (-1)).
Proof.
  exact (proj1 (naive_forecast_lags_validation Z [10; 20; 30; 40; 50] 2
                  ltac:(split; reflexivity))).
Defined.

(** ** Moving averages over the validation period *)

Section MovingAverageFacts.
Context {F : Type} `{DType F}.
Implicit Types (series : list F).

Lemma drop_fmap_seqZ {B} (g : Z -> B) (k : nat) (n : Z) :
  drop k (g <$> seqZ 0 n) = (fun i => g (Z.of_nat k + i)) <$> seqZ 0 (n - Z.of_nat k).
Proof.
  apply list_eq. intros i.
  rewrite lookup_drop, !list_lookup_fmap.
  destruct (decide (Z.of_nat i < n - Z.of_nat k)) as [Hi|Hi].
  - rewrite !lookup_seqZ_lt by lia. simpl. do 2 f_equal. lia.
  - rewrite !lookup_seqZ_ge by lia. reflexivity.
Qed.

Lemma zip_with_fmap_same {X B C D} (f : B -> C -> D) (g : X -> B) (h : X -> C)
    (l : list X) :
  zip_with f (g <$> l) (h <$> l) = (fun x => f (g x) (h x)) <$> l.
Proof.
  induction l as [|x l IH]; [reflexivity|].
  cbn. f_equal. exact IH.
Qed.

(** The forecast of a slice, value by value. *)
Lemma moving_average_forecast_slice_map series (a b w : Z) :
  0 <= a -> 0 < w -> a + w <= b -> b <= len series ->
  moving_average_forecast (slice series (Some a) (Some b)) w
  = Returned ((fun i => mean (slice series (Some (a + i)) (Some (a + i + w))))
                <$> seqZ 0 (b - a - w)).
Proof.
  intros Ha Hw Hab Hb.
  rewrite moving_average_forecast_map. f_equal.
  assert (Hlen : len (slice series (Some a) (Some b)) = b - a).
  { rewrite slice_inside by lia. unfold len in *.
    rewrite length_take, length_drop. lia. }
  rewrite Hlen. unfold range.
  apply list_eq. intros k.
  change (map ?f ?l) with (f <$> l).
  rewrite !list_lookup_fmap.
  destruct (decide (Z.of_nat k < b - a - w)) as [Hk|Hk].
  - rewrite !lookup_seqZ_lt by lia. simpl. do 2 f_equal.
    rewrite slice_slice by lia.
    do 2 f_equal. lia.
  - rewrite !lookup_seqZ_ge by lia. reflexivity.
Qed.

(** The averaged differences, aligned on the validation period. *)
Lemma diff_moving_avg_closed series (d : F) (split period window : Z) :
  0 < period -> 0 < window ->
  period + window <= split -> split <= len series ->
  diff_moving_avg split period window series
  = Returned ((fun i => mean (diffs_before period window series d (split + i)))
                <$> seqZ 0 (len series - split)).
Proof.
  intros Hp Hw Hsplit HT.
  unfold diff_moving_avg.
  rewrite diff_series_zip by lia. rewrite bind_Returned.
  rewrite moving_average_forecast_map. rewrite bind_Returned.
  set (ds := zip_with sub _ _).
  assert (Hds : len ds = len series - period).
  { unfold ds, len.
    replace (Z.to_nat (Z.of_nat (length series) - period))
      with (length series - Z.to_nat period)%nat by lia.
    rewrite length_diff_series_zip. unfold len in HT. lia. }
  rewrite slice_from by lia. f_equal.
  unfold range. change (map ?f ?l) with (f <$> l).
  rewrite drop_fmap_seqZ.
  apply list_eq. intros i. rewrite !list_lookup_fmap.
  destruct (decide (Z.of_nat i < len series - split)) as [Hi|Hi].
  - rewrite !lookup_seqZ_lt by lia. simpl. do 2 f_equal.
    unfold ds. rewrite (diff_window series d) by lia.
    f_equal. lia.
  - rewrite !lookup_seqZ_ge by lia. reflexivity.
Qed.

End MovingAverageFacts.

(** X3.  [moving_average_forecast(series, w)[split_time - w:]] with
    [0 < w <= split <= T] has one value per validation step, and the value
    for step [i] is the mean of the [w] samples just before time
    [split + i]: [series[split + i - w : split + i]]. *)
Theorem moving_avg_alignment :
  forall (F : Type) (D : DType F) (series : list F) (split_time window : Z),
    0 < window -> window <= split_time -> split_time <= len series ->
    exists forecast,
      moving_avg split_time window series = Returned forecast
      /\ len forecast = len (x_valid split_time series)
      /\ forall i, 0 <= i < len series - split_time ->
           forecast !! Z.to_nat i
           = Some (mean (slice series (Some (split_time + i - window))
                                      (Some (split_time + i))))
           /\ slice series (Some (split_time + i - window)) (Some (split_time + i))
              = take (Z.to_nat window) (drop (Z.to_nat (split_time + i - window)) series)
           /\ len (slice series (Some (split_time + i - window))
                               (Some (split_time + i))) = window.
Proof.
  intros F D series split w Hw Hws HsT.
  unfold moving_avg.
  rewrite moving_average_forecast_map, bind_Returned.
  eexists. split; [reflexivity|].
  assert (Hlen : len (map (fun time => mean (slice series (Some time) (Some (time + w))))
                          (range (len series - w))) = len series - w).
  { unfold len, range. rewrite length_map, length_seqZ. unfold len in *. lia. }
  rewrite slice_from by lia.
  unfold range. change (map ?f ?l) with (f <$> l).
  rewrite drop_fmap_seqZ.
  split.
  - unfold x_valid. rewrite (slice_from series split) by lia.
    unfold len in *. rewrite length_fmap, length_seqZ, length_drop. lia.
  - intros i Hi. split; [|split].
    + rewrite list_lookup_fmap, lookup_seqZ_lt by lia. simpl.
      do 3 f_equal; f_equal; lia.
    + rewrite slice_inside by lia. do 2 f_equal. lia.
    + rewrite slice_inside by lia. unfold len in *.
      rewrite length_take, length_drop. lia.
Qed.

Lemma moving_avg_alignment_witness :
  exists forecast,
    moving_avg 3 2 (map Float32.of_Z [1; 2; 3; 4; 5]) = Returned forecast
    /\ len forecast = len (x_valid 3 (map Float32.of_Z [1; 2; 3; 4; 5])).
Proof.
  destruct (moving_avg_alignment Float32.t float32
              (map Float32.of_Z [1; 2; 3; 4; 5]) 3 2
              ltac:(reflexivity) ltac:(discriminate) ltac:(discriminate))
    as (forecast & Hret & Hlen & _).
  exists forecast. split; [exact Hret | exact Hlen].
Defined.

(** X4.  Forecasting a slice is slicing the forecast: for
    [0 <= a], [a + w <= b <= T] the moving-average forecast of [series[a:b]]
    is the part [a : b - w] of the forecast of the whole series. *)
Theorem moving_average_forecast_of_slice :
  forall (F : Type) (D : DType F) (series : list F) (a b w : Z),
    0 <= a -> 0 < w -> a + w <= b -> b <= len series ->
    exists whole,
      moving_average_forecast series w = Returned whole
      /\ moving_average_forecast (slice series (Some a) (Some b)) w
         = Returned (slice whole (Some a) (Some (b - w))).
Proof.
  intros F D series a b w Ha Hw Hab Hb.
  eexists. split; [apply moving_average_forecast_map|].
  rewrite moving_average_forecast_slice_map by lia. f_equal.
  rewrite slice_inside
    by (try lia; unfold len, range in *; rewrite length_map, length_seqZ; lia).
  unfold range. change (map ?f ?l) with (f <$> l).
  rewrite drop_fmap_seqZ, <- fmap_take.
  apply list_eq. intros k. rewrite !list_lookup_fmap.
  destruct (decide (Z.of_nat k < b - a - w)) as [Hk|Hk].
  - rewrite lookup_take_lt by lia.
    rewrite !lookup_seqZ_lt by lia. simpl. do 4 f_equal; lia.
  - rewrite lookup_take_ge by lia.
    rewrite lookup_seqZ_ge by lia. reflexivity.
Qed.

Lemma moving_average_forecast_of_slice_witness :
  exists whole,
    moving_average_forecast (map Float32.of_Z [1; 2; 3; 4; 5; 6]) 2 = Returned whole
    /\ moving_average_forecast
         (slice (map Float32.of_Z [1; 2; 3; 4; 5; 6]) (Some 1) (Some 5)) 2
       = Returned (slice whole (Some 1) (Some (5 - 2))).
Proof.
  exact (moving_average_forecast_of_slice Float32.t float32
           (map Float32.of_Z [1; 2; 3; 4; 5; 6]) 1 5 2
           ltac:(discriminate) ltac:(reflexivity) ltac:(discriminate)
           ltac:(discriminate)).
Defined.

(** X5.  The smoothed reconstruction (period above 5, the windows fitting
    before the split) has one value per validation step; the value for step
    [i] is the mean of the ten samples
    [series[split + i - period - 5 : split + i - period + 5]] plus the mean
    of the [window] differences before time [split + i].  All the samples
    read lie inside the series. *)
Theorem diff_moving_avg_plus_smooth_past_alignment :
  forall (F : Type) (D : DType F) (series : list F) (d : F)
         (split_time period window : Z),
    5 < period -> 0 < window ->
    period + window <= split_time -> period + 5 <= split_time ->
    split_time <= len series ->
    exists forecast,
      diff_moving_avg_plus_smooth_past split_time period window series
      = Returned forecast
      /\ len forecast = len series - split_time
      /\ forall i, 0 <= i < len series - split_time ->
           forecast !! Z.to_nat i
           = Some (add (mean (slice series
                                (Some (split_time + i - period - 5))
                                (Some (split_time + i - period + 5))))
                       (mean (diffs_before period window series d (split_time + i))))
           /\ len (slice series (Some (split_time + i - period - 5))
                               (Some (split_time + i - period + 5))) = 10
           /\ 0 <= split_time + i - window - period
           /\ split_time + i - 1 < len series.
Proof.
  intros F D series d split period window Hp Hw Hpw Hp5 HT.
  unfold diff_moving_avg_plus_smooth_past.
  rewrite (diff_moving_avg_closed series d) by lia.
  rewrite bind_Returned.
  rewrite (slice_back_is_inside series _ (period - 5)) by lia.
  rewrite moving_average_forecast_slice_map by lia.
  rewrite bind_Returned.
  replace (len series - (period - 5) - (split - (period + 5)) - 10)
    with (len series - split) by lia.
  rewrite binop_same_length by (rewrite !length_fmap; reflexivity).
  rewrite zip_with_fmap_same.
  eexists. split; [reflexivity|]. split.
  - unfold len at 1. rewrite length_fmap, length_seqZ. lia.
  - intros i Hi. split; [|split; [|lia]].
    + rewrite list_lookup_fmap, lookup_seqZ_lt by lia. simpl.
      rewrite Z2Nat.id by lia. rewrite Z.add_0_l.
      f_equal. f_equal. do 2 f_equal; f_equal; lia.
    + rewrite slice_inside by lia. unfold len in *.
      rewrite length_take, length_drop. lia.
Qed.

Lemma diff_moving_avg_plus_smooth_past_alignment_witness :
  exists forecast,
    diff_moving_avg_plus_smooth_past Run.split_time Run.period Run.window
      (map Float32.of_Z (seqZ 0 Run.T)) = Returned forecast
    /\ len forecast = len (map Float32.of_Z (seqZ 0 Run.T)) - Run.split_time.
Proof.
  destruct (diff_moving_avg_plus_smooth_past_alignment Float32.t float32
              (map Float32.of_Z (seqZ 0 Run.T)) Float32.zero
              Run.split_time Run.period Run.window
              ltac:(reflexivity) ltac:(reflexivity)
              ltac:(discriminate) ltac:(discriminate)
              ltac:(vm_compute; discriminate))
    as (forecast & Hret & Hlen & _).
  exists forecast. split; [exact Hret | exact Hlen].
Defined.

(** ** Differencing at the edges *)

(** X6.  Differencing with period 0 subtracts an empty array
    ([series[:-0]]) from the whole series and raises on every series of two
    samples or more; a positive period of at least the length gives an empty
    result; a negative period [-k] silently subtracts the first [k] samples
    from the last [k]. *)
Theorem diff_series_edge_periods :
  forall (F : Type) (D : DType F) (series : list F),
    (2 <= len series -> diff_series 0 series = Raised ValueError)
    /\ (forall period, 0 < period -> len series <= period ->
          diff_series period series = Returned [])
    /\ (forall k, 0 < k <= len series ->
          diff_series (- k) series
          = Returned (zip_with sub (drop (Z.to_nat (len series - k)) series)
                                   (take (Z.to_nat k) series))).
Proof.
  intros F D series. split; [|split].
  - intros Hlen. unfold diff_series.
    rewrite slice_from by lia.
    change (- 0) with 0. rewrite slice_until by lia.
    change (Z.to_nat 0) with 0%nat. rewrite drop_0, take_0.
    unfold np.binop, len in *.
    destruct series as [|x [|y rest]]; simpl in Hlen; try lia.
    reflexivity.
  - intros period Hp Hge. unfold diff_series.
    rewrite slice_from by lia.
    rewrite slice_prefix.
    unfold adjust_index. destruct (Z.ltb_spec (- period) 0); [|lia].
    rewrite Z.max_r by lia. change (Z.to_nat 0) with 0%nat.
    rewrite take_0, drop_ge by (unfold len in *; lia).
    reflexivity.
  - intros k Hk. unfold diff_series.
    rewrite slice_suffix, adjust_index_negative by lia.
    rewrite Z.opp_involutive, slice_until by lia.
    replace (- k + len series) with (len series - k) by lia.
    apply binop_same_length.
    rewrite length_drop, length_take. unfold len in *. lia.
Qed.

Lemma diff_series_edge_periods_witness :
  diff_series 0 (map Float32.of_Z [1; 2; 3]) = Raised ValueError
  /\ diff_series 5 (map Float32.of_Z [1; 2; 3]) = Returned []
  /\ diff_series (- (2)) (map Float32.of_Z [1; 2; 3])
     = Returned (zip_with sub (drop (Z.to_nat (3 - 2)) (map Float32.of_Z [1; 2; 3]))
                              (take (Z.to_nat 2) (map Float32.of_Z [1; 2; 3]))).
Proof.
  destruct (diff_series_edge_periods Float32.t float32 (map Float32.of_Z [1; 2; 3]))
    as (H0 & Hbig & Hneg).
  split; [exact (H0 ltac:(discriminate))|].
  split; [exact (Hbig 5 ltac:(reflexivity) ltac:(discriminate))|].
  exact (Hneg 2 ltac:(split; [reflexivity | discriminate])).
Defined.

(** ** The signal generator, value by value *)

Section GeneratorFacts.
Context {F : Type} `{DType F} `{Elementary F}.

Lemma where_pointwise {X} (c : X -> bool) (a b : X -> F) (l : list X) :
  np.where_ (map c l) (map a l) (map b l)
  = map (fun x => if c x then a x else b x) l.
Proof.
  unfold np.where_. induction l as [|x l IH]; [reflexivity|].
  cbn. f_equal. exact IH.
Qed.

Lemma seasonal_pattern_pointwise (season_time : list F) :
  seasonal_pattern season_time = Returned (map pattern_at season_time).
Proof.
  unfold seasonal_pattern. rewrite where_pointwise. reflexivity.
Qed.

Lemma seasonality_pointwise (time : list F) (period amplitude phase : F) :
  seasonality time period amplitude phase
  = Returned (map (fun t => mul amplitude (pattern_at (season_time_at period phase t)))
                  time).
Proof.
  unfold seasonality.
  rewrite seasonal_pattern_pointwise, bind_Returned, !map_map. reflexivity.
Qed.

End GeneratorFacts.

(** X7.  [seasonality] returns one value per time step and never raises,
    whatever the period; although [np.where] evaluates both branches on the
    whole array, the value at a time [t] is [amplitude] times the branch that
    the season time of [t] itself selects: the cosine when
    [((t + phase) % period) / period < 0.4], else [1 / exp(3 x)]. *)
Theorem seasonality_value_by_value :
  forall (F : Type) (D : DType F) (E : Elementary F)
         (time : list F) (period amplitude phase : F),
    exists season,
      seasonality time period amplitude phase = Returned season
      /\ length season = length time
      /\ forall (i : nat) (t : F),
           time !! i = Some t ->
           season !! i
           = Some (mul amplitude
                     (let x := div (remainder (add t phase) period) period in
                      if less x lit_0_4
                      then cos (mul (mul x (of_Z 2)) pi)
                      else div (of_Z 1) (exp (mul (of_Z 3) x)))).
Proof.
  intros F D E time period amplitude phase.
  eexists. split; [apply seasonality_pointwise|].
  split; [apply length_map|].
  intros i t Ht.
  change (map ?f ?l) with (f <$> l).
  rewrite list_lookup_fmap, Ht. reflexivity.
Qed.

(** X8.  The noise-free series
    [baseline + trend(time, slope) + seasonality(time, period, amplitude)]
    never hits a shape mismatch: it has one value per time step, and the
    value at time [t] is [(baseline + slope * t) + amplitude * pattern],
    associated that way, with the pattern taken at the season time of [t]
    for phase 0. *)
Theorem series_without_noise_value_by_value :
  forall (F : Type) (D : DType F) (E : Elementary F)
         (time : list F) (baseline slope period amplitude : F),
    exists series,
      series_without_noise time baseline slope period amplitude = Returned series
      /\ length series = length time
      /\ forall (i : nat) (t : F),
           time !! i = Some t ->
           series !! i
           = Some (add (add baseline (mul slope t))
                       (mul amplitude
                          (pattern_at (season_time_at period (of_Z 0) t)))).
Proof.
  intros F D E time baseline slope period amplitude.
  unfold series_without_noise, trend.
  rewrite bind_Returned, seasonality_pointwise, bind_Returned.
  rewrite map_map.
  change (map ?f ?l) with (f <$> l).
  rewrite binop_same_length by (rewrite !length_fmap; reflexivity).
  rewrite zip_with_fmap_same.
  eexists. split; [reflexivity|].
  split; [apply length_fmap|].
  intros i t Ht. rewrite list_lookup_fmap, Ht. reflexivity.
Qed.

(** ** Noise on a longer time axis *)

Section NoisePrefixFacts.
Context {F : Type} `{DType F} {rng : Type}.
Variable gauss : rng -> F * rng.

Lemma randn_prefix (n m : nat) (rnd : rng) :
  (randn gauss n rnd).1 = take n (randn gauss (n + m) rnd).1.
Proof.
  revert rnd. induction n as [|n IH]; intros rnd.
  - rewrite take_0. reflexivity.
  - cbn [randn Nat.add]. destruct (gauss rnd) as [x rnd1].
    specialize (IH rnd1).
    destruct (randn gauss n rnd1) as [xs rnd2].
    destruct (randn gauss (n + m) rnd1) as [ys rnd3].
    cbn in *. rewrite IH. reflexivity.
Qed.

End NoisePrefixFacts.

(** X9.  With the same valid seed and level, the noise of a shorter time
    axis is the beginning of the noise of a longer one: lengthening the
    series leaves the noise of the earlier steps as it was. *)
Theorem noise_prefix_of_longer_axis :
  forall (F : Type) (D : DType F) (rng : Type)
         (init_genrand : Z -> rng) (gauss : rng -> F * rng)
         (short long : list F) (noise_level : F) (seed : Z) (w1 w2 : process),
    0 <= seed < 2 ^ 32 ->
    (length short <= length long)%nat ->
    exists values_short values_long,
      (noise init_genrand gauss short noise_level (Some seed) w1).1
      = Returned values_short
      /\ (noise init_genrand gauss long noise_level (Some seed) w2).1
         = Returned values_long
      /\ values_short = take (length short) values_long.
Proof.
  intros F D rng init_genrand gauss short long level seed w1 w2 Hseed Hlen.
  rewrite !noise_seeded by exact Hseed.
  eexists _, _. split; [reflexivity|]. split; [reflexivity|].
  change (map ?f ?l) with (f <$> l).
  rewrite <- fmap_take. f_equal.
  replace (length long) with (length short + (length long - length short))%nat by lia.
  apply randn_prefix.
Qed.

Lemma noise_prefix_of_longer_axis_witness :
  exists values_short values_long,
    (noise (fun s : Z => s) (fun g : Z => (Float32.of_Z g, g + 1))
           (map Float32.of_Z [0; 1]) (Float32.of_Z 5) (Some 42)
           {| global_rand := 7; os_entropy := fun _ => 0; os_reads := 0 |}).1
    = Returned values_short
    /\ (noise (fun s : Z => s) (fun g : Z => (Float32.of_Z g, g + 1))
              (map Float32.of_Z [0; 1; 2; 3]) (Float32.of_Z 5) (Some 42)
              {| global_rand := 9; os_entropy := fun _ => 1; os_reads := 2 |}).1
       = Returned values_long
    /\ values_short = take 2 values_long.
Proof.
  exact (noise_prefix_of_longer_axis Float32.t float32 Z
           (fun s : Z => s) (fun g : Z => (Float32.of_Z g, g + 1))
           (map Float32.of_Z [0; 1]) (map Float32.of_Z [0; 1; 2; 3])
           (Float32.of_Z 5) 42
           {| global_rand := 7; os_entropy := fun _ => 0; os_reads := 0 |}
           {| global_rand := 9; os_entropy := fun _ => 1; os_reads := 2 |}
           ltac:(split; [discriminate | reflexivity])
           ltac:(cbn; lia)).
Defined.

(** ** Plotting *)

(** X10.  When the time axis and the series have the same length,
    [plot_series] draws without error for every [start] and [end], negative
    and out-of-range ones included, one point per sample of the slice; on
    different lengths a full plot ([start = 0], no [end]) is refused. *)
Theorem plot_series_equal_lengths :
  forall (A B : Type) (time : list A) (series : list B),
    (length time = length series ->
     forall (start : Z) (end_ : option Z),
       exists points,
         plot_series time series start end_ = Returned points
         /\ points = zip (slice time (Some start) end_)
                         (slice series (Some start) end_)
         /\ length points = length (slice series (Some start) end_))
    /\ (length time <> length series ->
        plot_series time series 0 None = Raised ValueError).
Proof.
  intros A B time series. split.
  - intros Hlen start end_.
    assert (Hsl : length (slice time (Some start) end_)
                  = length (slice series (Some start) end_)).
    { unfold slice, len. rewrite !length_take, !length_drop, Hlen. reflexivity. }
    unfold plot_series, plt.plot.
    rewrite (proj2 (Nat.eqb_eq _ _) Hsl).
    eexists. split; [reflexivity|]. split; [reflexivity|].
    rewrite length_zip_with_l_eq by exact Hsl. exact Hsl.
  - intros Hne. unfold plot_series, plt.plot.
    rewrite !slice_from by lia. change (Z.to_nat 0) with 0%nat.
    rewrite !drop_0.
    rewrite (proj2 (Nat.eqb_neq _ _) Hne). reflexivity.
Qed.

Lemma plot_series_equal_lengths_witness :
  exists points,
    plot_series [0; 1; 2; 3] [10; 20; 30; 40] (-3) (Some 7) = Returned points
    /\ length points = 3%nat.
Proof.
  destruct (plot_series_equal_lengths Z Z [0; 1; 2; 3] [10; 20; 30; 40]) as [Heq _].
  destruct (Heq ltac:(reflexivity) (-3) (Some 7)) as (points & Hret & _ & Hlen).
  exists points. split; [exact Hret | exact Hlen].
Defined.

(** ** The shuffle buffer and the batches *)

Section ShuffleFacts.
Context {A : Type}.
Implicit Types (ds buf rest : list A).

(** The buffer treats its elements as opaque: shuffling commutes with
    mapping. *)
Lemma drain_fmap {B} (f : A -> B) (fuel : nat) (rand : list nat) buf :
  tfdata.drain fuel rand (f <$> buf) = f <$> tfdata.drain fuel rand buf.
Proof.
  revert rand buf. induction fuel as [|fuel IH]; intros rand buf; [reflexivity|].
  cbn [tfdata.drain]. rewrite length_fmap, list_lookup_fmap.
  destruct (buf !! (hd 0%nat rand `mod` length buf)%nat) as [x|]; [|reflexivity].
  cbn. rewrite <- list_fmap_delete, IH. reflexivity.
Qed.

Lemma refill_fmap {B} (f : A -> B) (rand : list nat) buf rest :
  tfdata.refill rand (f <$> buf) (f <$> rest) = f <$> tfdata.refill rand buf rest.
Proof.
  revert rand buf. induction rest as [|y rest IH]; intros rand buf.
  - cbn [tfdata.refill fmap list_fmap]. rewrite length_fmap. apply drain_fmap.
  - cbn [tfdata.refill fmap list_fmap]. rewrite length_fmap, list_lookup_fmap.
    destruct (buf !! (hd 0%nat rand `mod` length buf)%nat) as [x|]; [|reflexivity].
    cbn. rewrite <- list_fmap_insert, IH. reflexivity.
Qed.

(** A buffer of one element cannot reorder. *)
Lemma refill_one (rand : list nat) (x : A) rest :
  tfdata.refill rand [x] rest = x :: rest.
Proof.
  revert rand x. induction rest as [|y rest IH]; intros rand x.
  - cbn [tfdata.refill tfdata.drain length]. rewrite Nat.mod_1_r. reflexivity.
  - cbn [tfdata.refill length]. rewrite Nat.mod_1_r. cbn. rewrite IH. reflexivity.
Qed.

(** What has been emitted after [n] steps came from the buffer or from the
    first [n] elements of the remaining input. *)
Lemma refill_local (rand : list nat) buf rest (n : nat) (x : A) :
  tfdata.refill rand buf rest !! n = Some x -> x ∈ buf ++ take n rest.
Proof.
  revert rand buf n. induction rest as [|y rest IH]; intros rand buf n Hx.
  - cbn [tfdata.refill] in Hx. rewrite take_nil, app_nil_r.
    apply list_elem_of_lookup_2 in Hx.
    rewrite drain_Permutation in Hx by lia. exact Hx.
  - cbn [tfdata.refill] in Hx.
    destruct (buf !! (hd 0%nat rand `mod` length buf)%nat) as [x0|] eqn:Hslot;
      [|discriminate Hx].
    destruct n as [|n].
    + injection Hx as <-. apply elem_of_app. left.
      eapply list_elem_of_lookup_2. exact Hslot.
    + cbn in Hx. apply IH in Hx.
      apply elem_of_app in Hx as [Hin|Hin].
      * apply list_elem_of_lookup_1 in Hin as [k Hk].
        apply list_lookup_insert_Some in Hk as [(_ & -> & _)|(_ & Hk)].
        -- apply elem_of_app. right. cbn. left.
        -- apply elem_of_app. left. eapply list_elem_of_lookup_2. exact Hk.
      * apply elem_of_app. right. cbn. right. exact Hin.
Qed.

(** The [k]-th batch holds the elements from [k * n] on, [n] at most. *)
Lemma lookup_chunks (fuel n k : nat) ds :
  (0 < n)%nat -> (length ds <= fuel)%nat ->
  tfdata.chunks fuel n ds !! k
  = if decide (k * n < length ds)%nat then Some (take n (drop (k * n) ds)) else None.
Proof.
  intros Hn. revert k ds. induction fuel as [|fuel IH]; intros k ds Hfuel.
  - destruct ds; [|simpl in Hfuel; lia].
    cbn. destruct (decide _) as [Hlt|]; [simpl in Hlt; lia | reflexivity].
  - destruct ds as [|x ds].
    { cbn. destruct (decide _) as [Hlt|]; [simpl in Hlt; lia | reflexivity]. }
    cbn [tfdata.chunks]. destruct k as [|k].
    + cbn [lookup list_lookup]. 
      destruct (decide _) as [|Hge]; [reflexivity | simpl in Hge; lia].
    + cbn [lookup list_lookup].
      rewrite IH by (rewrite length_drop; simpl in *; lia).
      rewrite length_drop, drop_drop.
      replace (n + k * n)%nat with (S k * n)%nat by lia.
      destruct (decide (k * n < length (x :: ds) - n)%nat),
               (decide (S k * n < length (x :: ds))%nat); try reflexivity; lia.
Qed.

End ShuffleFacts.

(** ** The supervised dataset, batch by batch *)

Section WindowedDatasetStages.
Context {F : Type}.
Implicit Types (series : list F).

(** With positive sizes, the dataset is the batching of the shuffled
    pairs. *)
Lemma windowed_dataset_closed series (w b sb : Z) (rand : list nat) :
  0 <= w -> 0 < b -> 0 < sb ->
  windowed_dataset series w b sb rand
  = Returned (tfdata.chunks (length (shuffled_pairs w sb rand series))
                            (Z.to_nat b) (shuffled_pairs w sb rand series)).
Proof.
  intros Hw Hb Hsb.
  unfold windowed_dataset, tfdata.from_tensor_slices, tfdata.window.
  rewrite bool_decide_eq_true_2 by lia.
  rewrite bind_Returned.
  change (Z.to_nat 1) with 1%nat.
  rewrite full_windows by lia.
  set (ws := map _ (seq 0 _)).
  rewrite flat_map_batch_full; [|lia|].
  2:{ apply Forall_forall. intros win Hin.
      apply list_elem_of_fmap in Hin as (j & -> & Hj).
      apply list_elem_of_In, in_seq in Hj.
      unfold tfdata.expand_dims in *.
      rewrite length_take, length_drop. rewrite length_map in *. lia. }
  rewrite bind_Returned.
  unfold tfdata.shuffle. rewrite bool_decide_eq_true_2 by exact Hsb.
  rewrite bind_Returned.
  unfold tfdata.batch. rewrite bool_decide_eq_true_2 by exact Hb.
  rewrite bind_Returned. unfold tfdata.prefetch, tfdata.map.
  set (pairf := fun window : list (list F) =>
                  (slice window None (Some (-1)), slice window (Some 1) None)).
  assert (Hpairs : map pairf (tfdata.refill rand (take (Z.to_nat sb) ws)
                                                 (drop (Z.to_nat sb) ws))
                   = shuffled_pairs w sb rand series).
  { change (map pairf ?l) with (pairf <$> l).
    rewrite <- refill_fmap, fmap_take, fmap_drop.
    unfold shuffled_pairs.
    assert (Hws : pairf <$> ws
                  = map (window_pair w series) (seq 0 (Z.to_nat (len series - w)))).
    { unfold ws. change (pairf <$> ?l) with (map pairf l). rewrite map_map.
      replace (S (length (tfdata.expand_dims series)) - Z.to_nat (w + 1))%nat
        with (Z.to_nat (len series - w))
        by (unfold tfdata.expand_dims, len; rewrite length_map; lia).
      apply map_ext_in. intros j Hj. apply in_seq in Hj.
      apply (split_full_window w series j Hw). unfold len in *. lia. }
    rewrite Hws. reflexivity. }
  rewrite Hpairs. reflexivity.
Qed.

Lemma shuffled_pairs_Permutation series (w sb : Z) (rand : list nat) :
  0 < sb ->
  shuffled_pairs w sb rand series
  ≡ₚ map (window_pair w series) (seq 0 (Z.to_nat (len series - w))).
Proof.
  intros Hsb. unfold shuffled_pairs.
  set (pairs := map _ _).
  rewrite refill_Permutation.
  - rewrite take_drop. reflexivity.
  - destruct pairs as [|x pairs]; [right; apply drop_nil|].
    left. destruct (Z.to_nat sb) eqn:Hn; [lia | discriminate].
Qed.

End WindowedDatasetStages.

(** X11.  With positive sizes the dataset holds every pair once, and its
    [k]-th batch is the next [batch_size] pairs in emission order: every batch
    but the last has exactly [batch_size] pairs, the last is not empty, and
    nothing follows it. *)
Theorem windowed_dataset_batches :
  forall (F : Type) (series : list F)
         (window_size batch_size shuffle_buffer : Z) (rand : list nat),
    0 <= window_size -> 0 < batch_size -> 0 < shuffle_buffer ->
    exists dataset,
      windowed_dataset series window_size batch_size shuffle_buffer rand
      = Returned dataset
      /\ length (unbatch dataset) = Z.to_nat (len series - window_size)
      /\ forall k : nat,
           ((k * Z.to_nat batch_size < length (unbatch dataset))%nat ->
            exists batch,
              dataset !! k = Some batch
              /\ batch = take (Z.to_nat batch_size)
                              (drop (k * Z.to_nat batch_size) (unbatch dataset))
              /\ (0 < length batch <= Z.to_nat batch_size)%nat
              /\ (((k + 1) * Z.to_nat batch_size <= length (unbatch dataset))%nat ->
                  length batch = Z.to_nat batch_size))
           /\ ((length (unbatch dataset) <= k * Z.to_nat batch_size)%nat ->
               dataset !! k = None).
Proof.
  intros F series w b sb rand Hw Hb Hsb.
  rewrite windowed_dataset_closed by assumption.
  eexists. split; [reflexivity|].
  set (pairs := shuffled_pairs w sb rand series).
  assert (Hun : unbatch (tfdata.chunks (length pairs) (Z.to_nat b) pairs) = pairs).
  { unfold unbatch. apply concat_chunks; lia. }
  rewrite Hun. split.
  - unfold pairs. rewrite shuffled_pairs_Permutation by exact Hsb.
    rewrite length_map, length_seq. reflexivity.
  - intros k. rewrite lookup_chunks by lia. split.
    + intros Hk. rewrite decide_True by exact Hk.
      eexists. split; [reflexivity|]. split; [reflexivity|].
      rewrite length_take, length_drop. lia.
    + intros Hk. rewrite decide_False by lia. reflexivity.
Qed.

Lemma windowed_dataset_batches_witness :
  exists dataset,
    windowed_dataset [1; 2; 3; 4; 5; 6] 2 3 2 [1; 0; 1; 1]%nat = Returned dataset
    /\ length (unbatch dataset) = 4%nat.
Proof.
  destruct (windowed_dataset_batches Z [1; 2; 3; 4; 5; 6] 2 3 2 [1; 0; 1; 1]%nat
              ltac:(discriminate) ltac:(reflexivity) ltac:(reflexivity))
    as (dataset & Hret & Hlen & _).
  exists dataset. split; [exact Hret | exact Hlen].
Defined.

(** X12.  A shuffle buffer of one element does not shuffle: the pairs come
    out in the order of their starts, whatever the random choices. *)
Theorem windowed_dataset_buffer_one_keeps_order :
  forall (F : Type) (series : list F) (window_size batch_size : Z)
         (rand : list nat),
    0 <= window_size -> 0 < batch_size ->
    exists dataset,
      windowed_dataset series window_size batch_size 1 rand = Returned dataset
      /\ unbatch dataset
         = map (window_pair window_size series)
               (seq 0 (Z.to_nat (len series - window_size))).
Proof.
  intros F series w b rand Hw Hb.
  rewrite windowed_dataset_closed by lia.
  eexists. split; [reflexivity|].
  unfold unbatch. rewrite concat_chunks by lia.
  unfold shuffled_pairs. change (Z.to_nat 1) with 1%nat.
  destruct (map _ _) as [|pair pairs]; [reflexivity|].
  cbn [take drop]. rewrite take_0. apply refill_one.
Qed.

Lemma windowed_dataset_buffer_one_keeps_order_witness :
  exists dataset,
    windowed_dataset [1; 2; 3; 4; 5] 2 2 1 [3; 1; 2]%nat = Returned dataset
    /\ unbatch dataset = map (window_pair 2 [1; 2; 3; 4; 5]) (seq 0 3).
Proof.
  exact (windowed_dataset_buffer_one_keeps_order Z [1; 2; 3; 4; 5] 2 2 [3; 1; 2]%nat
           ltac:(discriminate) ltac:(reflexivity)).
Defined.

(** X13.  The shuffle is local: the pair emitted at position [n] starts
    at a sample [j < n + shuffle_buffer], so a pair is never emitted more
    than [shuffle_buffer - 1] places ahead of its turn. *)
Theorem windowed_dataset_shuffle_is_local :
  forall (F : Type) (series : list F)
         (window_size batch_size shuffle_buffer : Z) (rand : list nat),
    0 <= window_size -> 0 < batch_size -> 0 < shuffle_buffer ->
    exists dataset,
      windowed_dataset series window_size batch_size shuffle_buffer rand
      = Returned dataset
      /\ forall (n : nat) pair,
           unbatch dataset !! n = Some pair ->
           exists j : nat,
             (j < n + Z.to_nat shuffle_buffer)%nat
             /\ Z.of_nat j < len series - window_size
             /\ pair = window_pair window_size series j.
Proof.
  intros F series w b sb rand Hw Hb Hsb.
  rewrite windowed_dataset_closed by assumption.
  eexists. split; [reflexivity|].
  intros n pair Hn.
  unfold unbatch in Hn. rewrite concat_chunks in Hn by lia.
  unfold shuffled_pairs in Hn. apply refill_local in Hn.
  rewrite take_take_drop in Hn.
  apply elem_of_take in Hn as (j & Hj & Hlt).
  change (map ?f ?l) with (f <$> l) in Hj.
  rewrite list_lookup_fmap in Hj.
  destruct (seq 0 (Z.to_nat (len series - w)) !! j) as [j'|] eqn:Hseq;
    [|discriminate Hj].
  apply lookup_seq in Hseq as [-> Hjlt].
  injection Hj as <-.
  exists j. split; [lia|]. split; [lia | reflexivity].
Qed.

Lemma windowed_dataset_shuffle_is_local_witness :
  exists dataset,
    windowed_dataset [1; 2; 3; 4; 5; 6] 2 3 2 [1; 0; 1; 1]%nat = Returned dataset.
Proof.
  destruct (windowed_dataset_shuffle_is_local Z [1; 2; 3; 4; 5; 6] 2 3 2
              [1; 0; 1; 1]%nat
              ltac:(discriminate) ltac:(reflexivity) ltac:(reflexivity))
    as (dataset & Hret & _).
  exists dataset. exact Hret.
Defined.

(** X14.  A series with no more samples than the window size gives an
    empty dataset: no batch at all, no partial window and no error. *)
Theorem windowed_dataset_short_series :
  forall (F : Type) (series : list F)
         (window_size batch_size shuffle_buffer : Z) (rand : list nat),
    0 <= window_size -> 0 < batch_size -> 0 < shuffle_buffer ->
    len series <= window_size ->
    windowed_dataset series window_size batch_size shuffle_buffer rand
    = Returned [].
Proof.
  intros F series w b sb rand Hw Hb Hsb Hshort.
  rewrite windowed_dataset_closed by assumption.
  unfold shuffled_pairs.
  replace (Z.to_nat (len series - w)) with 0%nat by lia.
  cbn [seq map]. rewrite take_nil, drop_nil. reflexivity.
Qed.

Lemma windowed_dataset_short_series_witness :
  windowed_dataset [1; 2; 3] 3 2 4 [2; 1]%nat = Returned [].
Proof.
  exact (windowed_dataset_short_series Z [1; 2; 3] 3 2 4 [2; 1]%nat
           ltac:(discriminate) ltac:(reflexivity) ltac:(reflexivity)
           ltac:(discriminate)).
Defined.

Section PairFacts.
Context {F : Type}.
Implicit Types (series : list F).

(** Input and target of one pair overlap on all but one sample each. *)
Lemma window_pair_overlap (w : Z) series (j : nat) :
  0 <= w -> Z.of_nat j + w + 1 <= len series ->
  slice (window_pair w series j).1 (Some 1) None
  = slice (window_pair w series j).2 None (Some (-1)).
Proof.
  intros Hw Hfit. unfold window_pair, tfdata.expand_dims. cbn [fst snd].
  rewrite slice_from by lia.
  rewrite !slice_inside by lia.
  change (map ?f ?l) with (f <$> l).
  rewrite slice_prefix.
  assert (Hlen : len ((fun x : F => [x]) <$>
                        take (Z.to_nat (Z.of_nat j + w + 1 - (Z.of_nat j + 1)))
                             (drop (Z.to_nat (Z.of_nat j + 1)) series)) = w).
  { unfold len in *. rewrite length_fmap, length_take, length_drop. lia. }
  rewrite Hlen.
  assert (Hadj : Z.to_nat (adjust_index w (-1)) = (Z.to_nat w - 1)%nat).
  { unfold adjust_index. simpl. lia. }
  rewrite Hadj, <- fmap_drop, <- fmap_take. f_equal.
  change (Z.to_nat 1) with 1%nat.
  rewrite take_take.
  apply list_eq. intros k.
  destruct (decide (k < Z.to_nat w - 1)%nat) as [Hk|Hk].
  - rewrite lookup_drop, !lookup_take_drop by lia. f_equal. lia.
  - rewrite lookup_take_ge by lia.
    apply lookup_ge_None_2. rewrite length_drop, length_take, length_drop.
    unfold len in *. lia.
Qed.

End PairFacts.

(** X15.  In every emitted pair the target is the input moved one step
    ahead: the input without its first sample is the target without its
    last. *)
Theorem windowed_dataset_target_is_shifted_input :
  forall (F : Type) (series : list F)
         (window_size batch_size shuffle_buffer : Z) (rand : list nat),
    0 <= window_size -> 0 < batch_size -> 0 < shuffle_buffer ->
    exists dataset,
      windowed_dataset series window_size batch_size shuffle_buffer rand
      = Returned dataset
      /\ Forall (fun pair => slice pair.1 (Some 1) None
                             = slice pair.2 None (Some (-1)))
                (unbatch dataset).
Proof.
  intros F series w b sb rand Hw Hb Hsb.
  rewrite windowed_dataset_closed by assumption.
  eexists. split; [reflexivity|].
  unfold unbatch. rewrite concat_chunks by lia.
  eapply Permutation_Forall;
    [symmetry; apply shuffled_pairs_Permutation; exact Hsb|].
  apply Forall_forall. intros pair Hin.
  apply list_elem_of_fmap in Hin as (j & -> & Hj).
  apply list_elem_of_In, in_seq in Hj.
  apply window_pair_overlap; unfold len in *; lia.
Qed.

Lemma windowed_dataset_target_is_shifted_input_witness :
  exists dataset,
    windowed_dataset [1; 2; 3; 4; 5; 6] 2 3 2 [1; 0; 1; 1]%nat = Returned dataset
    /\ Forall (fun pair => slice pair.1 (Some 1) None
                           = slice pair.2 None (Some (-1)))
              (unbatch dataset).
Proof.
  exact (windowed_dataset_target_is_shifted_input Z [1; 2; 3; 4; 5; 6] 2 3 2
           [1; 0; 1; 1]%nat
           ltac:(discriminate) ltac:(reflexivity) ltac:(reflexivity)).
Defined.

(** ** Forecasting with the model *)

Section ModelForecastFacts.
Context {A O : Type}.
Variable model : list A -> O.
Implicit Types (series : list A).

(** One row per full window, in the order of the windows. *)
Lemma model_forecast_closed series (w b : Z) :
  0 < w -> 0 < b -> w <= len series ->
  model_forecast model series w b
  = Returned (map (fun j => model (take (Z.to_nat w) (drop j series)))
                  (seq 0 (S (length series) - Z.to_nat w))).
Proof.
  intros Hw Hb Hfit.
  unfold model_forecast, tfdata.from_tensor_slices, tfdata.window.
  rewrite bool_decide_eq_true_2 by lia.
  rewrite bind_Returned.
  change (Z.to_nat 1) with 1%nat.
  rewrite full_windows by lia.
  set (ws := map _ (seq 0 _)).
  rewrite flat_map_batch_full; [|lia|].
  2:{ apply Forall_forall. intros win Hin.
      apply list_elem_of_fmap in Hin as (j & -> & Hj).
      apply list_elem_of_In, in_seq in Hj.
      rewrite length_take, length_drop. lia. }
  rewrite bind_Returned.
  unfold tfdata.batch. rewrite bool_decide_eq_true_2 by exact Hb.
  rewrite bind_Returned.
  unfold tfdata.prefetch, keras.predict.
  destruct (tfdata.chunks (length ws) (Z.to_nat b) ws) as [|c cs] eqn:Hchunks.
  - apply (f_equal (fun l => l !! 0%nat)) in Hchunks.
    rewrite lookup_chunks in Hchunks by lia.
    assert (Hne : (0 < length ws)%nat).
    { unfold ws. rewrite length_map, length_seq. unfold len in *. lia. }
    rewrite decide_True in Hchunks by lia. discriminate Hchunks.
  - rewrite <- Hchunks.
    rewrite <- concat_map, concat_chunks by lia.
    unfold ws. rewrite map_map. reflexivity.
Qed.

(** A series shorter than the window leaves the model without input. *)
Lemma model_forecast_short series (w b : Z) :
  0 < w -> 0 < b -> len series < w ->
  model_forecast model series w b = Raised ValueError.
Proof.
  intros Hw Hb Hshort.
  unfold model_forecast, tfdata.from_tensor_slices, tfdata.window.
  rewrite bool_decide_eq_true_2 by lia.
  rewrite bind_Returned.
  change (Z.to_nat 1) with 1%nat.
  rewrite full_windows by lia.
  replace (S (length series) - Z.to_nat w)%nat with 0%nat
    by (unfold len in *; lia).
  cbn [seq map tfdata.flat_map]. rewrite bind_Returned.
  unfold tfdata.batch. rewrite bool_decide_eq_true_2 by exact Hb.
  reflexivity.
Qed.

End ModelForecastFacts.

(** X16.  With positive window and batch sizes and a series of at least
    [w] samples, [model_forecast] returns one row per full window of the
    series, [len series - w + 1] of them, in the order of the windows: row
    [j] is the model's output on [series[j : j + w]], and the batch size does
    not change the result.  On a series shorter than the window the dataset
    has no batch and the prediction raises. *)
Theorem model_forecast_rows :
  forall (A O : Type) (model : list A -> O) (series : list A)
         (window_size batch_size : Z),
    0 < window_size -> 0 < batch_size ->
    (window_size <= len series ->
     exists forecast,
       model_forecast model series window_size batch_size = Returned forecast
       /\ length forecast = Z.to_nat (len series - window_size + 1)
       /\ (forall j, 0 <= j <= len series - window_size ->
             forecast !! Z.to_nat j
             = Some (model (slice series (Some j) (Some (j + window_size)))))
       /\ (forall batch_size', 0 < batch_size' ->
             model_forecast model series window_size batch_size'
             = Returned forecast))
    /\ (len series < window_size ->
        model_forecast model series window_size batch_size = Raised ValueError).
Proof.
  intros A O model series w b Hw Hb. split.
  - intros Hfit.
    rewrite model_forecast_closed by assumption.
    eexists. split; [reflexivity|].
    split; [|split].
    + rewrite length_map, length_seq. unfold len. lia.
    + intros j Hj.
      change (map ?f ?l) with (f <$> l).
      rewrite list_lookup_fmap, lookup_seq_lt by (unfold len in *; lia).
      simpl. rewrite slice_inside by lia.
      do 3 f_equal. lia.
    + intros b' Hb'. apply model_forecast_closed; assumption.
  - intros Hshort. apply model_forecast_short; assumption.
Qed.

Lemma model_forecast_rows_witness :
  exists forecast,
    model_forecast (fun window : list Z => length window) [1; 2; 3; 4; 5] 2 3
    = Returned forecast
    /\ length forecast = 4%nat.
Proof.
  destruct (model_forecast_rows Z nat (fun window : list Z => length window)
              [1; 2; 3; 4; 5] 2 3 ltac:(reflexivity) ltac:(reflexivity))
    as [Hfits _].
  destruct (Hfits ltac:(discriminate)) as (forecast & Hret & Hlen & _).
  exists forecast. split; [exact Hret | exact Hlen].
Defined.

(** X17.  The rows kept for the validation period
    ([forecast[split_time - window_size:-1]], with
    [0 < w <= split <= T]) are as many as the validation samples, and the row
    for validation step [i] is the model's output on the [w] samples just
    before time [split + i]: [series[split + i - w : split + i]].  The last
    window, which ends at the end of the series, is left out. *)
Theorem forecast_rows_alignment :
  forall (F O : Type) (model : list (list F) -> O) (series : list F)
         (split_time window_size batch_size : Z),
    0 < window_size -> window_size <= split_time -> split_time <= len series ->
    0 < batch_size ->
    exists rows,
      forecast_rows model series split_time window_size batch_size = Returned rows
      /\ len rows = len (x_valid split_time series)
      /\ forall i, 0 <= i < len series - split_time ->
           rows !! Z.to_nat i
           = Some (model (tfdata.expand_dims
                            (slice series (Some (split_time + i - window_size))
                                          (Some (split_time + i))))).
Proof.
  intros F O model series split w b Hw Hws HsT Hb.
  unfold forecast_rows.
  rewrite model_forecast_closed
    by (try assumption; unfold tfdata.expand_dims, len in *;
        rewrite length_map; lia).
  rewrite bind_Returned.
  set (rows := map _ (seq 0 _)).
  assert (Hrows : len rows = len series - w + 1).
  { unfold rows, len, tfdata.expand_dims.
    rewrite length_map, length_seq, length_map. unfold len in *. lia. }
  pose proof (slice_inside_back rows (split - w) 1) as Hback.
  change (- (1)) with (-1) in Hback.
  rewrite Hback by lia.
  eexists. split; [reflexivity|]. split.
  - unfold x_valid. rewrite (slice_from series split) by lia.
    unfold len in *. rewrite length_take, !length_drop. lia.
  - intros i Hi.
    rewrite lookup_take_drop by lia.
    unfold rows. change (map ?f ?l) with (f <$> l).
    rewrite list_lookup_fmap, lookup_seq_lt
      by (unfold tfdata.expand_dims, len in *; rewrite length_fmap; lia).
    simpl. do 2 f_equal.
    unfold tfdata.expand_dims. change (map ?f ?l) with (f <$> l).
    rewrite slice_inside by lia.
    rewrite fmap_take, fmap_drop. f_equal; [lia|]. f_equal. lia.
Qed.

Lemma forecast_rows_alignment_witness :
  exists rows,
    forecast_rows (fun window : list (list Z) => length window)
                  [1; 2; 3; 4; 5; 6] 4 2 3 = Returned rows
    /\ len rows = len (x_valid 4 [1; 2; 3; 4; 5; 6]).
Proof.
  destruct (forecast_rows_alignment Z nat
              (fun window : list (list Z) => length window)
              [1; 2; 3; 4; 5; 6] 4 2 3
              ltac:(reflexivity) ltac:(discriminate) ltac:(discriminate)
              ltac:(reflexivity))
    as (rows & Hret & Hlen & _).
  exists rows. split; [exact Hret | exact Hlen].
Defined.

(** ** The naive forecast at the ends of the series *)

(** X18.  The naive forecast is empty when the split point is 0 or at
    least the length of the series.  At a split of 0 the validation part is
    the whole series, so forecast and validation part differ in length on
    every non-empty series; from the length on, both are empty. *)
Theorem naive_forecast_edge_splits :
  forall (A : Type) (series : list A),
    (naive_forecast 0 series = [] /\ x_valid 0 series = series)
    /\ (forall split_time, len series <= split_time ->
          naive_forecast split_time series = []
          /\ x_valid split_time series = []).
Proof.
  intros A series.
  assert (Hnil : forall split, split = 0 \/ len series <= split ->
                   naive_forecast split series = []).
  { intros split Hs. apply length_zero_iff_nil.
    unfold naive_forecast, slice, adjust_index.
    rewrite length_take, length_drop. unfold len in *.
    destruct (Z.ltb_spec (split - 1) 0), (Z.ltb_spec (-1) 0); lia. }
  split; [split|].
  - apply Hnil. left. reflexivity.
  - unfold x_valid. rewrite slice_from by lia. apply drop_0.
  - intros split Hs. split; [apply Hnil; right; exact Hs|].
    unfold x_valid. rewrite slice_from by (unfold len in *; lia).
    apply drop_ge. unfold len in *. lia.
Qed.

Lemma naive_forecast_edge_splits_witness :
  naive_forecast 3 [10; 20; 30] = [] /\ x_valid 3 [10; 20; 30] = [].
Proof.
  destruct (naive_forecast_edge_splits Z [10; 20; 30]) as [_ Hbig].
  exact (Hbig 3 ltac:(discriminate)).
Defined.

(** ** The generated series at noise level zero *)

Section GeneratedSeriesFacts.
Context {F : Type} `{DType F} `{Elementary F} {rng : Type}.
Variable init_genrand : Z -> rng.
Variable gauss : rng -> F * rng.
Variable iadd : F -> F -> F.





End GeneratedSeriesFacts.

(** In binary32 a zero noise level adds nothing to the value: for a finite
    draw the scaled draw is a zero, and adding it leaves every sample other
    than NaN numerically equal to itself, and every sample other than a zero
    the same bit for bit. *)
Lemma binary32_zero_level_noise (x g : Float32.t) (s : bool) :
  match g with S754_finite _ _ _ | S754_zero _ => True | _ => False end ->
  (x <> S754_nan ->
   Float32.eqb (Float32.fadd x (Float32.fmul g (S754_zero s))) x = true)
  /\ (match x with S754_zero _ => False | _ => True end ->
      Float32.fadd x (Float32.fmul g (S754_zero s)) = x).
Proof.
  intros Hg.
  destruct g as [sg| | |sg mg eg]; try contradiction;
    destruct x as [sx|sx| |sx mx ex]; (split; [intros Hx | intros Hz]);
    try contradiction; try congruence; try reflexivity;
    try (destruct sx, sg, s; reflexivity).
  all: unfold Float32.eqb, SFeqb; cbn;
       destruct sx; rewrite Z.compare_refl, Pos.compare_cont_refl; reflexivity.
Qed.



